(** * Mergington High School activities API: roster rules

    A shallow embedding of [src/app.py]: the two SQLAlchemy tables, the
    session through which the handlers read and write them, and the three
    request handlers [get_activities], [signup_for_activity] and
    [unregister_from_activity], followed by the properties of the roster
    (capacity, duplicates, error ordering, round trip, frame). *)

From Stdlib Require Import ZArith List String Ascii Bool Lia.
Import ListNotations.

Local Open Scope Z_scope.
Local Open Scope list_scope.

(** ** The tables *)

(** [class Activity(Base)]: a row of table [activities].  The column
    [max_participants] is a plain SQL [Integer], so nothing in the schema
    makes it positive; every row the program ever inserts carries an
    integer there. *)
Module Activity.
Record t : Type := mk {
  id : Z;
  name : string;
  description : string;
  schedule : string;
  max_participants : Z
}.
End Activity.

(** [class Participant(Base)]: a row of table [participants]. *)
Module Participant.
Record t : Type := mk {
  id : Z;
  email : string;
  activity_id : Z
}.
End Participant.

(** The database file.  Each table is the list of its rows in rowid order,
    which is the order in which SQLite scans a table and the order in which
    the queries below see the rows. *)
Record Database : Type := mkDatabase {
  activities : list Activity.t;
  participants : list Participant.t
}.

(** The rowid SQLite gives to a row inserted without an explicit [id] into an
    [INTEGER PRIMARY KEY] table: one more than the largest rowid in use, and 1
    in an empty table. *)
Definition next_rowid (ids : list Z) : Z :=
  match ids with
  | [] => 1
  | i :: rest => 1 + fold_left Z.max rest i
  end.

(** ** The session *)

(** What a session holds between [db.add] / [db.delete] and [db.commit]. *)
Inductive pending : Type :=
| PendingAdd (email : string) (activity_id : Z)
    (* Participant(email=email, activity=activity), not yet inserted *)
| PendingDelete (p : Participant.t).

(** [SessionLocal()]: a handle on the database ([bind]) together with the
    changes that were made through it and are not yet committed. *)
Record Session : Type := mkSession {
  bind : Database;
  unflushed : list pending
}.

Definition SessionLocal (db : Database) : Session := mkSession db [].

(** The INSERT or the DELETE ... WHERE id = ? that the flush emits. *)
Definition flush_one (db : Database) (c : pending) : Database :=
  match c with
  | PendingAdd email activity_id =>
      let rowid := next_rowid (map Participant.id (participants db)) in
      mkDatabase (activities db)
                 (participants db ++ [Participant.mk rowid email activity_id])
  | PendingDelete p =>
      mkDatabase (activities db)
                 (filter (fun q => negb (Participant.id q =? Participant.id p))
                         (participants db))
  end.

(** ** Raising handlers *)

Record HTTPException : Type := mkHTTPException {
  status_code : Z;
  detail : string
}.

(** A handler body: it runs in a session and either raises or returns. *)
Definition Request (A : Type) : Type :=
  Session -> (HTTPException + A) * Session.

Definition ret {A} (a : A) : Request A := fun s => (inr a, s).

Definition raise {A} (e : HTTPException) : Request A := fun s => (inl e, s).

Definition bind_request {A B} (m : Request A) (k : A -> Request B) : Request B :=
  fun s =>
    match m s with
    | (inl e, s') => (inl e, s')
    | (inr a, s') => k a s'
    end.

Declare Scope request_scope.
Delimit Scope request_scope with request.
Notation "x <- m ;; k" := (bind_request m (fun x => k))
  (at level 61, m at next level, right associativity) : request_scope.
Notation "m ;; k" := (bind_request m (fun _ => k))
  (at level 61, right associativity) : request_scope.
Local Open Scope request_scope.

(** [db.query(Activity).filter(Activity.name == activity_name).first()].
    SQLite compares text with its BINARY collation, byte for byte. *)
Definition query_activity_by_name (activity_name : string)
  : Request (option Activity.t) :=
  fun s =>
    (inr (find (fun a => String.eqb (Activity.name a) activity_name)
               (activities (bind s))), s).

(** [activity.participants]: the relationship loads the rows of
    [participants] whose [activity_id] is the activity's [id]. *)
Definition participants_of (db : Database) (activity : Activity.t)
  : list Participant.t :=
  filter (fun p => Participant.activity_id p =? Activity.id activity)
         (participants db).

Definition load_participants (activity : Activity.t)
  : Request (list Participant.t) :=
  fun s => (inr (participants_of (bind s) activity), s).

(** [db.query(Participant).filter(Participant.activity_id == activity.id,
    Participant.email == email).first()]. *)
Definition query_participant (activity : Activity.t) (email : string)
  : Request (option Participant.t) :=
  fun s =>
    (inr (find (fun p => (Participant.activity_id p =? Activity.id activity)
                         && String.eqb (Participant.email p) email)
               (participants (bind s))), s).

(** [db.query(Activity).all()]. *)
Definition query_activity_all : Request (list Activity.t) :=
  fun s => (inr (activities (bind s)), s).

Definition db_add (email : string) (activity : Activity.t) : Request unit :=
  fun s =>
    (inr tt, mkSession (bind s)
                       (unflushed s ++ [PendingAdd email (Activity.id activity)])).

Definition db_delete (p : Participant.t) : Request unit :=
  fun s => (inr tt, mkSession (bind s) (unflushed s ++ [PendingDelete p])).

Definition db_commit : Request unit :=
  fun s => (inr tt, mkSession (fold_left flush_one (unflushed s) (bind s)) []).

(** [Depends(get_db)]: the handler runs in a fresh session, which is closed
    on every exit path; what was not committed is dropped with it. *)
Definition get_db {A} (handler : Request A) (db : Database)
  : (HTTPException + A) * Database :=
  let (r, s) := handler (SessionLocal db) in (r, bind s).

(** ** The handlers *)

(** The JSON object [{"message": ...}]. *)
Record Message : Type := mkMessage { message : string }.

(** The value of [get_activities] for one activity. *)
Record ActivityInfo : Type := mkActivityInfo {
  info_description : string;
  info_schedule : string;
  info_max_participants : Z;
  info_participants : list string
}.

(** [result[k] = v] on a Python dict: a later assignment to the same key
    replaces the value and keeps the key in place. *)
Fixpoint dict_set {V} (k : string) (v : V) (d : list (string * V))
  : list (string * V) :=
  match d with
  | [] => [(k, v)]
  | (k', v') :: d' =>
      if String.eqb k' k then (k, v) :: d' else (k', v') :: dict_set k v d'
  end.

Definition get_activities_body : Request (list (string * ActivityInfo)) :=
  all <- query_activity_all ;;
  fun s =>
    (inr (fold_left
            (fun result activity =>
               dict_set (Activity.name activity)
                 (mkActivityInfo
                    (Activity.description activity)
                    (Activity.schedule activity)
                    (Activity.max_participants activity)
                    (map Participant.email (participants_of (bind s) activity)))
                 result)
            all []), s).

Definition signup_for_activity_body (activity_name email : string)
  : Request Message :=
  found <- query_activity_by_name activity_name ;;
  match found with
  | None => raise (mkHTTPException 404 "Activity not found")
  | Some activity =>
      ps <- load_participants activity ;;
      if existsb (String.eqb email) (map Participant.email ps)
      then raise (mkHTTPException 400 "Student is already signed up")
      else if Z.of_nat (List.length ps) >=? Activity.max_participants activity
      then raise (mkHTTPException 400 "Activity is full")
      else
        db_add email activity ;;
        db_commit ;;
        ret (mkMessage ("Signed up " ++ email ++ " for " ++ activity_name)%string)
  end.

Definition unregister_from_activity_body (activity_name email : string)
  : Request Message :=
  found <- query_activity_by_name activity_name ;;
  match found with
  | None => raise (mkHTTPException 404 "Activity not found")
  | Some activity =>
      participant <- query_participant activity email ;;
      match participant with
      | None =>
          raise (mkHTTPException 400 "Student is not signed up for this activity")
      | Some p =>
          db_delete p ;;
          db_commit ;;
          ret (mkMessage
                 ("Unregistered " ++ email ++ " from " ++ activity_name)%string)
      end
  end.

Definition get_activities (db : Database) :=
  get_db get_activities_body db.

Definition signup_for_activity (activity_name email : string) (db : Database) :=
  get_db (signup_for_activity_body activity_name email) db.

Definition unregister_from_activity (activity_name email : string)
  (db : Database) :=
  get_db (unregister_from_activity_body activity_name email) db.

(** ** Seed data *)

(** One entry of [initial_activities] in [init_db]. *)
Record Seed : Type := mkSeed {
  seed_name : string;
  seed_description : string;
  seed_schedule : string;
  seed_max_participants : Z;
  seed_participants : list string
}.

Definition initial_activities : list Seed :=
  [ mkSeed "Chess Club" "Learn strategies and compete in chess tournaments"
      "Fridays, 3:30 PM - 5:00 PM" 12
      ["michael@mergington.edu"; "daniel@mergington.edu"]%string;
    mkSeed "Programming Class"
      "Learn programming fundamentals and build software projects"
      "Tuesdays and Thursdays, 3:30 PM - 4:30 PM" 20
      ["emma@mergington.edu"; "sophia@mergington.edu"]%string;
    mkSeed "Gym Class" "Physical education and sports activities"
      "Mondays, Wednesdays, Fridays, 2:00 PM - 3:00 PM" 30
      ["john@mergington.edu"; "olivia@mergington.edu"]%string;
    mkSeed "Soccer Team" "Join the school soccer team and compete in matches"
      "Tuesdays and Thursdays, 4:00 PM - 5:30 PM" 22
      ["liam@mergington.edu"; "noah@mergington.edu"]%string;
    mkSeed "Basketball Team" "Practice and play basketball with the school team"
      "Wednesdays and Fridays, 3:30 PM - 5:00 PM" 15
      ["ava@mergington.edu"; "mia@mergington.edu"]%string;
    mkSeed "Art Club" "Explore your creativity through painting and drawing"
      "Thursdays, 3:30 PM - 5:00 PM" 15
      ["amelia@mergington.edu"; "harper@mergington.edu"]%string;
    mkSeed "Drama Club" "Act, direct, and produce plays and performances"
      "Mondays and Wednesdays, 4:00 PM - 5:30 PM" 20
      ["ella@mergington.edu"; "scarlett@mergington.edu"]%string;
    mkSeed "Math Club"
      "Solve challenging problems and participate in math competitions"
      "Tuesdays, 3:30 PM - 4:30 PM" 10
      ["james@mergington.edu"; "benjamin@mergington.edu"]%string;
    mkSeed "Debate Team" "Develop public speaking and argumentation skills"
      "Fridays, 4:00 PM - 5:30 PM" 12
      ["charlotte@mergington.edu"; "henry@mergington.edu"]%string ].

(** One turn of the loop of [init_db]: the activity is inserted and flushed
    so that it has its [id], then its participants are added. *)
Definition add_seed (db : Database) (act : Seed) : Database :=
  let activity :=
    Activity.mk (next_rowid (map Activity.id (activities db)))
                (seed_name act) (seed_description act) (seed_schedule act)
                (seed_max_participants act) in
  fold_left
    (fun d email => flush_one d (PendingAdd email (Activity.id activity)))
    (seed_participants act)
    (mkDatabase (activities db ++ [activity]) (participants db)).

Definition init_db (db : Database) : Database :=
  if Z.of_nat (List.length (activities db)) =? 0
  then fold_left add_seed initial_activities db
  else db.

(** The store right after the first start of the application. *)
Definition seeded : Database := init_db (mkDatabase [] []).

(** ** Vocabulary of the properties *)

(** The four failures of the enrollment rules, as the handlers raise them. *)
Definition NotFound : HTTPException :=
  mkHTTPException 404 "Activity not found".
Definition AlreadyEnrolled : HTTPException :=
  mkHTTPException 400 "Student is already signed up".
Definition CapacityExceeded : HTTPException :=
  mkHTTPException 400 "Activity is full".
Definition NotEnrolled : HTTPException :=
  mkHTTPException 400 "Student is not signed up for this activity".

(** The activity a handler works on when it is given [activity_name]. *)
Definition find_activity (db : Database) (activity_name : string)
  : option Activity.t :=
  find (fun a => String.eqb (Activity.name a) activity_name) (activities db).

Definition activity_exists (db : Database) (activity_name : string) : Prop :=
  exists a, In a (activities db) /\ Activity.name a = activity_name.

(** The emails enrolled in an activity, in enrollment order, as
    [get_activities] lists them. *)
Definition roster (db : Database) (activity : Activity.t) : list string :=
  map Participant.email (participants_of db activity).

Definition headcount (db : Database) (activity : Activity.t) : Z :=
  Z.of_nat (List.length (roster db activity)).

(** What [get_activities] reports about one activity. *)
Definition activity_info (db : Database) (a : Activity.t) : ActivityInfo :=
  mkActivityInfo (Activity.description a) (Activity.schedule a)
                 (Activity.max_participants a) (roster db a).

(** [s] occurs in [text]. *)
Definition contains (text s : string) : Prop :=
  exists before after, text = (before ++ s ++ after)%string.

(** A list without the first occurrence of [e]. *)
Fixpoint remove_first (e : string) (l : list string) : list string :=
  match l with
  | [] => []
  | x :: l' => if String.eqb x e then l' else x :: remove_first e l'
  end.

(** The constraints the schema puts on the tables: [id] is the primary key
    of both, and [Activity.name] is declared [unique]. *)
Record well_formed (db : Database) : Prop := {
  activity_pk : NoDup (map Activity.id (activities db));
  activity_name_unique : NoDup (map Activity.name (activities db));
  participant_pk : NoDup (map Participant.id (participants db))
}.

(** Sequences of calls. *)
Inductive operation : Type :=
| Signup (activity_name email : string)
| Unregister (activity_name email : string).

Definition step (db : Database) (op : operation) : Database :=
  match op with
  | Signup activity_name email =>
      snd (signup_for_activity activity_name email db)
  | Unregister activity_name email =>
      snd (unregister_from_activity activity_name email db)
  end.

Definition run (ops : list operation) (db : Database) : Database :=
  fold_left step ops db.

(** ** The handlers, one call at a time *)

(** The values the two handlers return. *)
Definition signup_message (activity_name email : string) : Message :=
  mkMessage ("Signed up " ++ email ++ " for " ++ activity_name)%string.

Definition unregister_message (activity_name email : string) : Message :=
  mkMessage ("Unregistered " ++ email ++ " from " ++ activity_name)%string.

(** The row [unregister_from_activity] finds for [email] in an activity. *)
Definition find_participant (db : Database) (activity : Activity.t)
  (email : string) : option Participant.t :=
  find (fun p => (Participant.activity_id p =? Activity.id activity)
                 && String.eqb (Participant.email p) email)
       (participants db).

(** The entries of a list of keys are pairwise different. *)
Fixpoint distinct {K : Type} (eqb : K -> K -> bool) (l : list K) : bool :=
  match l with
  | [] => true
  | x :: l' => negb (existsb (eqb x) l') && distinct eqb l'
  end.

(** The schema constraints, checked. *)
Definition well_formedb (db : Database) : bool :=
  distinct Z.eqb (map Activity.id (activities db))
  && distinct String.eqb (map Activity.name (activities db))
  && distinct Z.eqb (map Participant.id (participants db)).

(** ** Stores and calls used as examples *)

(** The first seeded activity, as [init_db] stores it. *)
Definition chess_club : Activity.t :=
  Activity.mk 1 "Chess Club" "Learn strategies and compete in chess tournaments"
    "Fridays, 3:30 PM - 5:00 PM" 12.

(** The second one. *)
Definition programming_class : Activity.t :=
  Activity.mk 2 "Programming Class"
    "Learn programming fundamentals and build software projects"
    "Tuesdays and Thursdays, 3:30 PM - 4:30 PM" 20.

(** The calls of a short session on the seeded store. *)
Definition scenario : list operation :=
  [ Signup "Chess Club" "new@mergington.edu";
    Signup "Chess Club" "michael@mergington.edu";
    Unregister "Chess Club" "daniel@mergington.edu";
    Signup "Unknown Club" "x@mergington.edu" ].

(** An activity with a single place. *)
Definition solo : Activity.t :=
  Activity.mk 1 "Solo" "One place only" "Mondays" 1.

(** A store with that activity and nobody enrolled, and the same store with
    its only place taken. *)
Definition solo_empty : Database := mkDatabase [solo] [].

Definition solo_full : Database :=
  mkDatabase [solo] [Participant.mk 1 "first@mergington.edu" 1].

(** ** Calls with their results *)

(** One call, with what it returns or raises. *)
Definition call (op : operation) (db : Database)
  : (HTTPException + Message) * Database :=
  match op with
  | Signup activity_name email => signup_for_activity activity_name email db
  | Unregister activity_name email =>
      unregister_from_activity activity_name email db
  end.

(** The activity name a call is addressed to. *)
Definition target (op : operation) : string :=
  match op with
  | Signup activity_name _ => activity_name
  | Unregister activity_name _ => activity_name
  end.

(** What the calls of a sequence return or raise, in order. *)
Fixpoint trace (ops : list operation) (db : Database)
  : list (HTTPException + Message) :=
  match ops with
  | [] => []
  | op :: ops' => fst (call op db) :: trace ops' (snd (call op db))
  end.

(** ** The calls seen from the rosters *)

(** What a call answers, given the activity found under its name and the
    roster of that activity. *)
Definition call_result (op : operation) (found : option Activity.t)
  (l : list string) : HTTPException + Message :=
  match found with
  | None => inl NotFound
  | Some a =>
      match op with
      | Signup activity_name email =>
          if existsb (String.eqb email) l then inl AlreadyEnrolled
          else if Z.of_nat (List.length l) >=? Activity.max_participants a
          then inl CapacityExceeded
          else inr (signup_message activity_name email)
      | Unregister activity_name email =>
          if existsb (String.eqb email) l
          then inr (unregister_message activity_name email)
          else inl NotEnrolled
      end
  end.

(** What a call that found activity [a] makes of the roster [l] of [a]. *)
Definition own_effect (op : operation) (a : Activity.t) (l : list string)
  : list string :=
  match op with
  | Signup _ email =>
      if existsb (String.eqb email) l
         || (Z.of_nat (List.length l) >=? Activity.max_participants a)
      then l
      else l ++ [email]
  | Unregister _ email => remove_first email l
  end.

(** What a call makes of the roster [l] of activity [c], given the activity
    found under its name. *)
Definition roster_effect (op : operation) (found : option Activity.t)
  (c : Activity.t) (l : list string) : list string :=
  match found with
  | None => l
  | Some a => if Activity.id a =? Activity.id c then own_effect op a l else l
  end.

(** Two stores that show the same activities and the same rosters. *)
Definition same_rosters (db db' : Database) : Prop :=
  activities db = activities db' /\ forall a, roster db a = roster db' a.

(** Every enrollment row refers to an activity of the store. *)
Definition referential_integrity (db : Database) : Prop :=
  forall p, In p (participants db) ->
            exists a, In a (activities db)
                      /\ Activity.id a = Participant.activity_id p.

Definition referential_integrityb (db : Database) : bool :=
  forallb (fun p => existsb (fun a => Activity.id a =? Participant.activity_id p)
                            (activities db))
          (participants db).

(** The invariants of the roster of one activity. *)
Definition roster_ok (db : Database) (a : Activity.t) : Prop :=
  headcount db a <= Activity.max_participants a /\ NoDup (roster db a).

Definition roster_okb (db : Database) (a : Activity.t) : bool :=
  (headcount db a <=? Activity.max_participants a)
  && distinct String.eqb (roster db a).

(** The places left in an activity. *)
Definition places_left (db : Database) (a : Activity.t) : nat :=
  Z.to_nat (Activity.max_participants a - headcount db a).

(** Two stores with the same rosters and different participant ids: in the
    first one a student enrolled and left before the other one came. *)
Definition after_detour : Database :=
  run [ Signup "Chess Club" "x@mergington.edu";
        Signup "Chess Club" "y@mergington.edu";
        Unregister "Chess Club" "x@mergington.edu" ] seeded.

Definition straight : Database :=
  run [ Signup "Chess Club" "y@mergington.edu" ] seeded.

(** ** Scenario of the seeded store *)

Example seeded_chess_club :
  find_activity seeded "Chess Club" = Some chess_club
  /\ roster seeded chess_club
     = ["michael@mergington.edu"; "daniel@mergington.edu"]%string.
Proof. split; reflexivity. Qed.

Example scenario_results :
  let db1 := step seeded (Signup "Chess Club" "new@mergington.edu") in
  let db2 := step db1 (Unregister "Chess Club" "daniel@mergington.edu") in
  fst (signup_for_activity "Chess Club" "new@mergington.edu" seeded)
  = inr (signup_message "Chess Club" "new@mergington.edu")
  /\ fst (signup_for_activity "Chess Club" "michael@mergington.edu" db1)
     = inl AlreadyEnrolled
  /\ roster db2 chess_club
     = ["michael@mergington.edu"; "new@mergington.edu"]%string
  /\ fst (signup_for_activity "Unknown Club" "x@mergington.edu" db2)
     = inl NotFound.
Proof. repeat split; vm_compute; reflexivity. Qed.

(** Two signups, one after the other, for the only place of an activity:
    the first one gets it. *)
Example solo_two_signups :
  let first := signup_for_activity "Solo" "a@mergington.edu" solo_empty in
  let second := signup_for_activity "Solo" "b@mergington.edu" (snd first) in
  fst first = inr (signup_message "Solo" "a@mergington.edu")
  /\ fst second = inl CapacityExceeded
  /\ roster (snd second) solo = ["a@mergington.edu"]%string.
Proof. repeat split; vm_compute; reflexivity. Qed.

(** ** Rowids *)

Lemma fold_left_max_bounds (l : list Z) (x : Z) :
  x <= fold_left Z.max l x /\ forall y, In y l -> y <= fold_left Z.max l x.
Proof.
  revert x; induction l as [|z l IH]; intros x; simpl.
  - split; [lia | tauto].
  - destruct (IH (Z.max x z)) as [Hx Hl]. split; [lia |].
    intros y [<- | Hy]; [lia | auto].
Qed.

Lemma next_rowid_above (ids : list Z) (i : Z) :
  In i ids -> i < next_rowid ids.
Proof.
  destruct ids as [|j rest]; [intros [] |].
  unfold next_rowid. destruct (fold_left_max_bounds rest j) as [Hj Hrest].
  intros [<- | Hi]; [lia | specialize (Hrest _ Hi); lia].
Qed.

Lemma next_rowid_fresh (ids : list Z) : ~ In (next_rowid ids) ids.
Proof. intros H. apply next_rowid_above in H. lia. Qed.

(** ** Keys of a table *)

Section Keys.
Context {Row K : Type} (key : Row -> K).

Lemma key_determines_row (l : list Row) (x y : Row) :
  NoDup (map key l) -> In x l -> In y l -> key x = key y -> x = y.
Proof.
  induction l as [|z l IH]; simpl; [tauto |].
  intros Hnd Hx Hy Hk. inversion Hnd as [|? ? Hz Hl]; subst.
  destruct Hx as [-> | Hx], Hy as [-> | Hy]; auto.
  - exfalso. apply Hz. rewrite Hk. now apply in_map.
  - exfalso. apply Hz. rewrite <- Hk. now apply in_map.
Qed.

Lemma NoDup_keys_filter (f : Row -> bool) (l : list Row) :
  NoDup (map key l) -> NoDup (map key (filter f l)).
Proof.
  induction l as [|z l IH]; simpl; [auto |].
  intros Hnd. inversion Hnd as [|? ? Hz Hl]; subst.
  destruct (f z); simpl; auto. constructor; auto.
  intros Hin. apply Hz. apply in_map_iff in Hin as (w & Hw & Hin).
  apply filter_In in Hin as [Hin _]. rewrite <- Hw. now apply in_map.
Qed.

Lemma NoDup_keys_snoc (l : list Row) (x : Row) :
  NoDup (map key l) -> ~ In (key x) (map key l) -> NoDup (map key (l ++ [x])).
Proof.
  induction l as [|z l IH]; simpl; intros Hnd Hx.
  - constructor; [tauto | constructor].
  - inversion Hnd as [|? ? Hz Hl]; subst. constructor; [| apply IH; tauto].
    rewrite map_app, in_app_iff. simpl. intros [H | [H | []]]; [tauto |].
    apply Hx. now left.
Qed.
End Keys.

(** DELETE ... WHERE id = k on a table in which [k] does not occur. *)
Lemma delete_absent_key {Row : Type} (key : Row -> Z) (k : Z) (l : list Row) :
  ~ In k (map key l) -> filter (fun q => negb (key q =? k)) l = l.
Proof.
  induction l as [|z l IH]; simpl; [auto |].
  intros Hk. destruct (Z.eqb_spec (key z) k) as [E | E]; simpl.
  - exfalso. auto.
  - f_equal. apply IH. tauto.
Qed.


(** ** Checking keys by computation *)

Section Distinct.
Context {K : Type} (eqb : K -> K -> bool).
Hypothesis eqb_spec : forall x y, reflect (x = y) (eqb x y).

Lemma distinct_NoDup (l : list K) : distinct eqb l = true -> NoDup l.
Proof.
  induction l as [|x l IH]; simpl; [constructor |].
  intros H. apply andb_true_iff in H as [Hx Hl]. constructor; [| auto].
  intros Hin. apply negb_true_iff in Hx.
  assert (existsb (eqb x) l = true); [| congruence].
  apply existsb_exists. exists x. split; [assumption |].
  now destruct (eqb_spec x x).
Qed.
End Distinct.

(** ** String tests *)

Lemma existsb_eqb_In (e : string) (l : list string) :
  existsb (String.eqb e) l = true <-> In e l.
Proof.
  rewrite existsb_exists. split.
  - intros (x & Hx & E). apply String.eqb_eq in E. now subst.
  - intros H. exists e. split; [assumption | apply String.eqb_refl].
Qed.

Lemma existsb_eqb_not_In (e : string) (l : list string) :
  existsb (String.eqb e) l = false <-> ~ In e l.
Proof.
  rewrite <- existsb_eqb_In. destruct (existsb _ l); split; intuition congruence.
Qed.

Lemma contains_intro (before s after : string) :
  contains (before ++ s ++ after) s.
Proof. now exists before, after. Qed.

Lemma string_app_assoc (a b c : string) :
  ((a ++ b) ++ c = a ++ (b ++ c))%string.
Proof. induction a as [|ch a IH]; simpl; [reflexivity | now rewrite IH]. Qed.

Lemma string_app_nil_r (a : string) : (a ++ "" = a)%string.
Proof. induction a as [|ch a IH]; simpl; [reflexivity | now rewrite IH]. Qed.

(** ** First occurrences *)

Lemma remove_first_length (e : string) (l : list string) :
  In e l -> S (List.length (remove_first e l)) = List.length l.
Proof.
  induction l as [|x l IH]; simpl; [tauto |].
  destruct (String.eqb_spec x e) as [-> | Hne]; [reflexivity |].
  intros [-> | Hin]; [congruence |]. simpl. now rewrite IH.
Qed.

Lemma remove_first_other (e e' : string) (l : list string) :
  e' <> e -> (In e' (remove_first e l) <-> In e' l).
Proof.
  intros Hne. induction l as [|x l IH]; simpl; [tauto |].
  destruct (String.eqb_spec x e) as [-> | Hx]; simpl.
  - split; [auto | intros [E | H]; [congruence | exact H]].
  - now rewrite IH.
Qed.

Lemma remove_first_subset (e e' : string) (l : list string) :
  In e' (remove_first e l) -> In e' l.
Proof.
  induction l as [|x l IH]; simpl; [tauto |].
  destruct (String.eqb_spec x e); simpl; intuition.
Qed.

Lemma remove_first_NoDup (e : string) (l : list string) :
  NoDup l -> NoDup (remove_first e l) /\ ~ In e (remove_first e l).
Proof.
  induction l as [|x l IH]; simpl; intros Hnd.
  - split; [constructor | tauto].
  - inversion Hnd as [|? ? Hx Hl]; subst.
    destruct (String.eqb_spec x e) as [-> | Hne]; [now split |].
    destruct (IH Hl) as [IH1 IH2]. split.
    + constructor; [| exact IH1]. intros H. apply Hx.
      now apply remove_first_subset in H.
    + simpl. intros [E | H]; [congruence | auto].
Qed.

Lemma signup_for_activity_eq (activity_name email : string) (db : Database) :
  signup_for_activity activity_name email db =
  match find_activity db activity_name with
  | None => (inl NotFound, db)
  | Some a =>
      if existsb (String.eqb email) (roster db a)
      then (inl AlreadyEnrolled, db)
      else if headcount db a >=? Activity.max_participants a
      then (inl CapacityExceeded, db)
      else (inr (signup_message activity_name email),
            flush_one db (PendingAdd email (Activity.id a)))
  end.
Proof.
  unfold signup_for_activity, get_db, signup_for_activity_body, bind_request,
    query_activity_by_name, load_participants, find_activity, headcount, roster.
  simpl. destruct (find _ (activities db)) as [a|]; [| reflexivity].
  rewrite length_map.
  destruct (existsb _ _); [reflexivity |].
  destruct (_ >=? _); reflexivity.
Qed.

Lemma unregister_from_activity_eq (activity_name email : string)
  (db : Database) :
  unregister_from_activity activity_name email db =
  match find_activity db activity_name with
  | None => (inl NotFound, db)
  | Some a =>
      match find_participant db a email with
      | None => (inl NotEnrolled, db)
      | Some p => (inr (unregister_message activity_name email),
                   flush_one db (PendingDelete p))
      end
  end.
Proof.
  unfold unregister_from_activity, get_db, unregister_from_activity_body,
    bind_request, query_activity_by_name, query_participant, find_activity,
    find_participant, SessionLocal.
  cbn [bind]. destruct (find _ (activities db)) as [a|]; [| reflexivity].
  cbn [bind]. destruct (find _ (participants db)); reflexivity.
Qed.

Lemma find_activity_None (db : Database) (activity_name : string) :
  find_activity db activity_name = None <-> ~ activity_exists db activity_name.
Proof.
  unfold find_activity, activity_exists. split.
  - intros Hnone (a & Hin & Hname).
    pose proof (find_none _ _ Hnone a Hin) as H. simpl in H.
    rewrite Hname, String.eqb_refl in H. discriminate.
  - intros Hno. destruct (find _ (activities db)) as [a|] eqn:E; [| reflexivity].
    exfalso. apply Hno. apply find_some in E as [Hin Hname].
    apply String.eqb_eq in Hname. now exists a.
Qed.

Lemma find_activity_Some (db : Database) (activity_name : string)
  (a : Activity.t) :
  find_activity db activity_name = Some a ->
  In a (activities db) /\ Activity.name a = activity_name.
Proof.
  unfold find_activity. intros E. apply find_some in E as [Hin Hname].
  apply String.eqb_eq in Hname. now split.
Qed.

Lemma find_participant_None (db : Database) (a : Activity.t) (email : string) :
  find_participant db a email = None <-> ~ In email (roster db a).
Proof.
  unfold find_participant, roster, participants_of.
  induction (participants db) as [|q l IH]; simpl; [tauto |].
  destruct (Participant.activity_id q =? Activity.id a); simpl; [| exact IH].
  destruct (String.eqb_spec (Participant.email q) email) as [E | E].
  - split; [discriminate | intros H; exfalso; auto].
  - rewrite IH. tauto.
Qed.

Lemma find_participant_Some (db : Database) (a : Activity.t) (email : string)
  (p : Participant.t) :
  find_participant db a email = Some p ->
  In p (participants db) /\ Participant.activity_id p = Activity.id a
  /\ Participant.email p = email.
Proof.
  unfold find_participant. intros E. apply find_some in E as [Hin Hp].
  apply andb_true_iff in Hp as [Ha He].
  apply Z.eqb_eq in Ha. apply String.eqb_eq in He. auto.
Qed.

(** ** What a flush does to a roster *)

Lemma roster_after_add (db : Database) (email : string) (i : Z)
  (b : Activity.t) :
  roster (flush_one db (PendingAdd email i)) b =
  roster db b ++ (if i =? Activity.id b then [email] else []).
Proof.
  unfold roster, participants_of. simpl.
  rewrite filter_app, map_app. simpl. now destruct (i =? Activity.id b).
Qed.

Lemma roster_after_delete_subset (db : Database) (p : Participant.t)
  (b : Activity.t) :
  roster (flush_one db (PendingDelete p)) b =
  map Participant.email
    (filter (fun q => negb (Participant.id q =? Participant.id p))
            (participants_of db b)).
Proof.
  unfold roster, participants_of. simpl. f_equal.
  induction (participants db) as [|q l IH]; simpl; [reflexivity |].
  destruct (Participant.id q =? Participant.id p) eqn:Ei,
           (Participant.activity_id q =? Activity.id b) eqn:Ea;
    simpl; rewrite ?Ei, ?Ea; simpl; rewrite ?IH; reflexivity.
Qed.

(** Deleting the row found for [email] in [a] takes the first occurrence of
    [email] out of the roster of [a]. *)
Lemma roster_after_delete_found (l : list Participant.t) (i : Z)
  (email : string) (p : Participant.t) :
  NoDup (map Participant.id l) ->
  find (fun q => (Participant.activity_id q =? i)
                 && String.eqb (Participant.email q) email) l = Some p ->
  map Participant.email
    (filter (fun q => Participant.activity_id q =? i)
       (filter (fun q => negb (Participant.id q =? Participant.id p)) l))
  = remove_first email
      (map Participant.email
         (filter (fun q => Participant.activity_id q =? i) l)).
Proof.
  induction l as [|q l IH]; simpl; [discriminate |].
  intros Hnd Hfind. inversion Hnd as [|? ? Hq Hl]; subst.
  destruct (Participant.activity_id q =? i) eqn:Ea; simpl in Hfind.
  - destruct (String.eqb_spec (Participant.email q) email) as [Ee | Ee].
    + injection Hfind as <-. rewrite Z.eqb_refl. simpl.
      rewrite Ee, String.eqb_refl.
      now rewrite (delete_absent_key Participant.id _ l Hq).
    + assert (Hne : Participant.id q <> Participant.id p).
      { intros E. apply Hq. rewrite E. apply in_map.
        now apply find_some in Hfind as [Hin _]. }
      apply Z.eqb_neq in Hne. rewrite Hne. simpl. rewrite Ea. simpl.
      apply String.eqb_neq in Ee. rewrite Ee. f_equal. now apply IH.
  - assert (Hne : Participant.id q <> Participant.id p).
    { intros E. apply Hq. rewrite E. apply in_map.
      now apply find_some in Hfind as [Hin _]. }
    apply Z.eqb_neq in Hne. rewrite Hne. simpl. rewrite Ea. now apply IH.
Qed.

(** Deleting a row of one activity leaves the rosters of the activities with
    another [id] as they are. *)
Lemma roster_after_delete_elsewhere (db : Database) (p : Participant.t)
  (b : Activity.t) :
  NoDup (map Participant.id (participants db)) ->
  In p (participants db) ->
  Participant.activity_id p <> Activity.id b ->
  roster (flush_one db (PendingDelete p)) b = roster db b.
Proof.
  intros Hnd Hin Hne. rewrite roster_after_delete_subset. unfold roster. f_equal.
  unfold participants_of.
  assert (H : forall q, In q (filter (fun q => Participant.activity_id q
                                               =? Activity.id b)
                                     (participants db)) ->
                        negb (Participant.id q =? Participant.id p) = true).
  { intros q Hq. apply filter_In in Hq as [Hq Hb]. apply Z.eqb_eq in Hb.
    apply negb_true_iff, Z.eqb_neq. intros E.
    assert (q = p) by (eapply key_determines_row; eauto).
    subst. contradiction. }
  revert H. generalize (filter (fun q => Participant.activity_id q
                                         =? Activity.id b) (participants db)).
  induction l as [|q l IH]; simpl; [reflexivity |].
  intros H. rewrite (H q (or_introl eq_refl)). f_equal. apply IH.
  intros q' Hq'. apply H. now right.
Qed.

(** ** The listing *)

Lemma dict_set_fresh {V} (k : string) (v : V) (d : list (string * V)) :
  ~ In k (map fst d) -> dict_set k v d = d ++ [(k, v)].
Proof.
  induction d as [|[k' v'] d IH]; simpl; [reflexivity |].
  intros Hk. destruct (String.eqb_spec k' k) as [E | E]; [tauto |].
  f_equal. apply IH. tauto.
Qed.

(** With distinct names, the listing has one entry per activity, in table
    order, and each entry carries the roster of its activity. *)
Lemma get_activities_eq (db : Database) :
  NoDup (map Activity.name (activities db)) ->
  get_activities db
  = (inr (map (fun a => (Activity.name a, activity_info db a)) (activities db)),
     db).
Proof.
  intros Hnd. unfold get_activities, get_db, get_activities_body, bind_request,
    query_activity_all, SessionLocal. cbn [bind]. f_equal. f_equal.
  change (map (fun a => (Activity.name a, activity_info db a)) (activities db))
    with ([] ++ map (fun a => (Activity.name a, activity_info db a))
                    (activities db)).
  assert (Hfresh : forall n, In n (map Activity.name (activities db)) ->
                             ~ In n (map fst (@nil (string * ActivityInfo))))
    by (intros n _ []).
  revert Hnd Hfresh.
  generalize (@nil (string * ActivityInfo)) as acc.
  induction (activities db) as [|a l IH]; intros acc Hnd Hfresh; simpl.
  - now rewrite app_nil_r.
  - inversion Hnd as [|? ? Ha Hl]; subst.
    rewrite dict_set_fresh by (apply Hfresh; now left).
    rewrite IH; [now rewrite <- app_assoc | assumption |].
    intros n Hn. rewrite map_app, in_app_iff. simpl.
    intros [H | [<- | []]]; [| contradiction].
    revert H. apply Hfresh. now right.
Qed.

(** ** The schema constraints are kept *)


Lemma well_formedb_sound (db : Database) :
  well_formedb db = true -> well_formed db.
Proof.
  unfold well_formedb. intros H.
  apply andb_true_iff in H as [H Hp]. apply andb_true_iff in H as [Hi Hn].
  split.
  - exact (distinct_NoDup Z.eqb Z.eqb_spec _ Hi).
  - exact (distinct_NoDup String.eqb String.eqb_spec _ Hn).
  - exact (distinct_NoDup Z.eqb Z.eqb_spec _ Hp).
Qed.

Lemma seeded_well_formed : well_formed seeded.
Proof. apply well_formedb_sound. vm_compute. reflexivity. Qed.

Lemma flush_one_activities (db : Database) (c : pending) :
  activities (flush_one db c) = activities db.
Proof. destruct c; reflexivity. Qed.

Lemma flush_one_well_formed (db : Database) (c : pending) :
  well_formed db -> well_formed (flush_one db c).
Proof.
  intros [Hi Hn Hp]. split; rewrite ?flush_one_activities; try assumption.
  destruct c as [email i | p]; simpl.
  - apply NoDup_keys_snoc; [assumption |]. simpl. apply next_rowid_fresh.
  - now apply NoDup_keys_filter.
Qed.

Lemma step_cases (db : Database) (op : operation) :
  step db op = db \/ exists c, step db op = flush_one db c.
Proof.
  destruct op as [n e | n e]; simpl.
  - rewrite signup_for_activity_eq.
    destruct (find_activity db n) as [a|]; [| now left].
    destruct (existsb _ _); [now left |].
    destruct (_ >=? _); [now left | right; eexists; reflexivity].
  - rewrite unregister_from_activity_eq.
    destruct (find_activity db n) as [a|]; [| now left].
    destruct (find_participant db a e); [right; eexists; reflexivity | now left].
Qed.

Lemma step_activities (db : Database) (op : operation) :
  activities (step db op) = activities db.
Proof.
  destruct (step_cases db op) as [-> | [c ->]];
    [reflexivity | apply flush_one_activities].
Qed.

Lemma step_well_formed (db : Database) (op : operation) :
  well_formed db -> well_formed (step db op).
Proof.
  destruct (step_cases db op) as [-> | [c ->]];
    [auto | apply flush_one_well_formed].
Qed.

Lemma run_activities (ops : list operation) (db : Database) :
  activities (run ops db) = activities db.
Proof.
  revert db; induction ops as [|op ops IH]; intros db; simpl; [reflexivity |].
  unfold run in IH. now rewrite IH, step_activities.
Qed.

Lemma run_well_formed (ops : list operation) (db : Database) :
  well_formed db -> well_formed (run ops db).
Proof.
  revert db; induction ops as [|op ops IH]; intros db H; simpl; [exact H |].
  apply IH. now apply step_well_formed.
Qed.

Lemma roster_same_id (db : Database) (a b : Activity.t) :
  Activity.id a = Activity.id b -> roster db a = roster db b.
Proof. unfold roster, participants_of. now intros ->. Qed.

(** ** Capacity *)

Lemma step_headcount (db : Database) (op : operation) (a : Activity.t) :
  well_formed db ->
  In a (activities db) ->
  headcount db a <= Activity.max_participants a ->
  headcount (step db op) a <= Activity.max_participants a.
Proof.
  intros Hwf Ha Hcap. destruct op as [n e | n e]; simpl.
  - rewrite signup_for_activity_eq.
    destruct (find_activity db n) as [b|] eqn:Hb; [| exact Hcap].
    destruct (existsb _ _); [exact Hcap |].
    destruct (Z.geb_spec (headcount db b) (Activity.max_participants b))
      as [Hfull | Hroom]; [exact Hcap |].
    cbn [snd]. unfold headcount. rewrite roster_after_add.
    destruct (Z.eqb_spec (Activity.id b) (Activity.id a)) as [E | E].
    + apply find_activity_Some in Hb as [Hin _].
      assert (b = a)
        by (eapply (key_determines_row Activity.id);
            [apply (activity_pk _ Hwf) | assumption | assumption | exact E]).
      subst b. unfold headcount in Hroom. rewrite length_app. simpl. lia.
    + now rewrite app_nil_r.
  - rewrite unregister_from_activity_eq.
    destruct (find_activity db n) as [b|]; [| exact Hcap].
    destruct (find_participant db b e) as [p|]; [| exact Hcap].
    cbn [snd]. unfold headcount in *. rewrite roster_after_delete_subset.
    unfold roster in Hcap. rewrite length_map in *.
    pose proof (filter_length_le
                  (fun q => negb (Participant.id q =? Participant.id p))
                  (participants_of db a)).
    lia.
Qed.

(** A signup that succeeds found a free place. *)
Lemma signup_within_capacity (activity_name email : string) (db : Database)
  (b : Activity.t) (msg : Message) (db' : Database) :
  signup_for_activity activity_name email db = (inr msg, db') ->
  find_activity db activity_name = Some b ->
  headcount db' b <= Activity.max_participants b.
Proof.
  intros Hsignup Hb. rewrite signup_for_activity_eq, Hb in Hsignup.
  destruct (existsb _ _); [discriminate |].
  destruct (Z.geb_spec (headcount db b) (Activity.max_participants b));
    [discriminate |].
  apply (f_equal snd) in Hsignup. cbn [snd] in Hsignup. subst db'.
  unfold headcount in *. rewrite roster_after_add, Z.eqb_refl, length_app.
  simpl. lia.
Qed.

(** C1. Capacity invariant: in a store that meets the schema constraints,
    an activity that holds no more participants than its
    [max_participants] still does so after any sequence of signup and
    unregister calls; in particular, a signup that succeeds after such a
    sequence leaves the count of that activity, and the count of the activity
    it signed up for, within capacity. *)
Theorem capacity_invariant (db : Database) (a : Activity.t)
  (ops : list operation) :
  well_formed db ->
  In a (activities db) ->
  headcount db a <= Activity.max_participants a ->
  headcount (run ops db) a <= Activity.max_participants a
  /\ forall activity_name email msg db',
       signup_for_activity activity_name email (run ops db) = (inr msg, db') ->
       headcount db' a <= Activity.max_participants a
       /\ forall b, find_activity (run ops db) activity_name = Some b ->
                    headcount db' b <= Activity.max_participants b.
Proof.
  intros Hwf Ha Hcap.
  assert (Hrun : forall ops' db0,
             well_formed db0 -> In a (activities db0) ->
             headcount db0 a <= Activity.max_participants a ->
             headcount (run ops' db0) a <= Activity.max_participants a).
  { induction ops' as [|op ops' IH]; intros db0 Hwf0 Ha0 Hcap0; simpl; [auto |].
    apply IH.
    - now apply step_well_formed.
    - now rewrite step_activities.
    - now apply step_headcount. }
  split; [now apply Hrun |].
  intros n e msg db' Hsignup. split.
  - replace db' with (step (run ops db) (Signup n e))
      by (simpl; now rewrite Hsignup).
    apply step_headcount.
    + now apply run_well_formed.
    + now rewrite run_activities.
    + now apply Hrun.
  - intros b Hb. now apply (signup_within_capacity n e (run ops db) b msg).
Qed.

(** ** Duplicates *)

Lemma step_NoDup (db : Database) (op : operation) (a : Activity.t) :
  NoDup (roster db a) -> NoDup (roster (step db op) a).
Proof.
  intros Hnd. destruct op as [n e | n e]; simpl.
  - rewrite signup_for_activity_eq.
    destruct (find_activity db n) as [b|]; [| exact Hnd].
    destruct (existsb _ _) eqn:Hdup; [exact Hnd |].
    destruct (_ >=? _); [exact Hnd |].
    cbn [snd]. rewrite roster_after_add.
    destruct (Z.eqb_spec (Activity.id b) (Activity.id a)) as [E | E];
      [| now rewrite app_nil_r].
    apply existsb_eqb_not_In in Hdup. rewrite (roster_same_id db b a E) in Hdup.
    apply NoDup_app; [assumption | constructor; [tauto | constructor] |].
    intros x Hx [<- | []]. contradiction.
  - rewrite unregister_from_activity_eq.
    destruct (find_activity db n) as [b|]; [| exact Hnd].
    destruct (find_participant db b e) as [p|]; [| exact Hnd].
    cbn [snd]. rewrite roster_after_delete_subset.
    now apply NoDup_keys_filter.
Qed.

(** C2. No-duplicate invariant: an activity whose roster holds no email
    twice still has such a roster after any sequence of signup and
    unregister calls. *)
Theorem no_duplicate_invariant (db : Database) (a : Activity.t)
  (ops : list operation) :
  NoDup (roster db a) -> NoDup (roster (run ops db) a).
Proof.
  revert db. induction ops as [|op ops IH]; intros db Hnd; simpl; [exact Hnd |].
  apply IH. now apply step_NoDup.
Qed.

Lemma capacity_invariant_witness :
  headcount (run scenario seeded) chess_club
  <= Activity.max_participants chess_club
  /\ forall activity_name email msg db',
       signup_for_activity activity_name email (run scenario seeded)
       = (inr msg, db') ->
       headcount db' chess_club <= Activity.max_participants chess_club
       /\ forall b, find_activity (run scenario seeded) activity_name = Some b ->
                    headcount db' b <= Activity.max_participants b.
Proof.
  apply (capacity_invariant seeded chess_club scenario).
  - apply well_formedb_sound. vm_compute. reflexivity.
  - simpl. left. reflexivity.
  - vm_compute. discriminate.
Defined.

Lemma no_duplicate_invariant_witness :
  NoDup (roster (run scenario seeded) chess_club).
Proof.
  apply (no_duplicate_invariant seeded chess_club scenario).
  apply (distinct_NoDup String.eqb String.eqb_spec). vm_compute. reflexivity.
Defined.

(** ** Signup *)

(** Case analyses on a found activity end in the same few steps. *)
Ltac settle :=
  repeat match goal with
    | H : exists _, _ |- _ => destruct H
    | H : _ /\ _ |- _ => destruct H
    | H : Some _ = Some _ |- _ => injection H as <-
    | H : (_, _) = (_, _) |- _ => injection H as <-
    end;
  try discriminate; try contradiction; try lia; eauto.


Lemma find_activity_flush_one (db : Database) (c : pending)
  (activity_name : string) :
  find_activity (flush_one db c) activity_name
  = find_activity db activity_name.
Proof. unfold find_activity. now rewrite flush_one_activities. Qed.

Lemma roster_after_signup (db : Database) (email : string) (a : Activity.t) :
  roster (flush_one db (PendingAdd email (Activity.id a))) a
  = roster db a ++ [email].
Proof. now rewrite roster_after_add, Z.eqb_refl. Qed.

Lemma signup_succeeds (activity_name email : string) (db : Database)
  (a : Activity.t) :
  find_activity db activity_name = Some a ->
  ~ In email (roster db a) ->
  headcount db a < Activity.max_participants a ->
  signup_for_activity activity_name email db
  = (inr (signup_message activity_name email),
     flush_one db (PendingAdd email (Activity.id a))).
Proof.
  intros Ha Hnew Hroom. rewrite signup_for_activity_eq, Ha.
  apply existsb_eqb_not_In in Hnew. rewrite Hnew.
  destruct (Z.geb_spec (headcount db a) (Activity.max_participants a));
    [lia | reflexivity].
Qed.

(** C3. Signup check ordering: signup fails with NotFound exactly when no
    activity has the name, with AlreadyEnrolled exactly when the activity
    exists and holds the email, and with CapacityExceeded exactly when the
    activity exists, does not hold the email and is full; so an activity that
    is full and already holds the email reports AlreadyEnrolled and not
    CapacityExceeded. *)
Theorem signup_check_order (activity_name email : string) (db : Database) :
  (fst (signup_for_activity activity_name email db) = inl NotFound
   <-> ~ activity_exists db activity_name)
  /\ (fst (signup_for_activity activity_name email db) = inl AlreadyEnrolled
      <-> exists a, find_activity db activity_name = Some a
                    /\ In email (roster db a))
  /\ (fst (signup_for_activity activity_name email db) = inl CapacityExceeded
      <-> exists a, find_activity db activity_name = Some a
                    /\ ~ In email (roster db a)
                    /\ Activity.max_participants a <= headcount db a)
  /\ (forall a,
        find_activity db activity_name = Some a ->
        In email (roster db a) ->
        Activity.max_participants a <= headcount db a ->
        fst (signup_for_activity activity_name email db) = inl AlreadyEnrolled
        /\ fst (signup_for_activity activity_name email db)
           <> inl CapacityExceeded).
Proof.
  rewrite signup_for_activity_eq.
  destruct (find_activity db activity_name) as [a|] eqn:Ha.
  - assert (Hex : activity_exists db activity_name).
    { apply find_activity_Some in Ha as [Hin Hname]. now exists a. }
    destruct (existsb (String.eqb email) (roster db a)) eqn:Hdup;
      [apply existsb_eqb_In in Hdup | apply existsb_eqb_not_In in Hdup].
    + cbn [fst]. refine (conj _ (conj _ (conj _ _))).
      * split; intros; settle.
      * split; intros; settle.
      * split; intros; settle.
      * intros; split; settle.
    + destruct (Z.geb_spec (headcount db a) (Activity.max_participants a))
        as [Hfull | Hroom]; cbn [fst]; refine (conj _ (conj _ (conj _ _))).
      * split; intros; settle.
      * split; intros; settle.
      * split; intros; settle.
      * intros; split; settle.
      * split; intros; settle.
      * split; intros; settle.
      * split; intros; settle.
      * intros; split; settle.
  - cbn [fst]. refine (conj _ (conj _ (conj _ _))).
    + split; intros; settle. now apply find_activity_None.
    + split; intros; settle.
    + split; intros; settle.
    + intros; split; settle.
Qed.

Lemma signup_check_order_witness :
  fst (signup_for_activity "Solo" "first@mergington.edu" solo_full)
  = inl AlreadyEnrolled
  /\ fst (signup_for_activity "Solo" "first@mergington.edu" solo_full)
     <> inl CapacityExceeded.
Proof.
  destruct (signup_check_order "Solo" "first@mergington.edu" solo_full)
    as (_ & _ & _ & H).
  apply (H solo).
  - reflexivity.
  - simpl. left. reflexivity.
  - vm_compute. discriminate.
Defined.

(** C4. Signup success postcondition: when the named activity exists, does
    not hold the email and has fewer participants than its capacity, signup
    succeeds; the email is added to the roster of that activity, whose count
    grows by exactly one, and the message returned names both the activity
    and the email. *)
Theorem signup_success (activity_name email : string) (db : Database)
  (a : Activity.t) :
  find_activity db activity_name = Some a ->
  ~ In email (roster db a) ->
  headcount db a < Activity.max_participants a ->
  exists msg db',
    signup_for_activity activity_name email db = (inr msg, db')
    /\ roster db' a = roster db a ++ [email]
    /\ In email (roster db' a)
    /\ (forall e, In e (roster db' a) <-> In e (roster db a) \/ e = email)
    /\ headcount db' a = headcount db a + 1
    /\ contains (message msg) activity_name
    /\ contains (message msg) email.
Proof.
  intros Ha Hnew Hroom. rewrite signup_for_activity_eq, Ha.
  apply existsb_eqb_not_In in Hnew. rewrite Hnew.
  destruct (Z.geb_spec (headcount db a) (Activity.max_participants a));
    [lia |].
  exists (signup_message activity_name email),
         (flush_one db (PendingAdd email (Activity.id a))).
  assert (Hroster : roster (flush_one db (PendingAdd email (Activity.id a))) a
                    = roster db a ++ [email])
    by (now rewrite roster_after_add, Z.eqb_refl).
  split; [reflexivity |]. split; [exact Hroster |].
  unfold headcount. rewrite Hroster. repeat split.
  - apply in_or_app. right. now left.
  - rewrite in_app_iff. simpl. intuition.
  - rewrite in_app_iff. simpl. intuition.
  - rewrite length_app. simpl. lia.
  - exists ("Signed up " ++ email ++ " for ")%string, ""%string. simpl.
    rewrite string_app_nil_r, string_app_assoc. reflexivity.
  - exists "Signed up "%string, (" for " ++ activity_name)%string. reflexivity.
Qed.

Lemma signup_success_witness :
  exists msg db',
    signup_for_activity "Chess Club" "new@mergington.edu" seeded
    = (inr msg, db')
    /\ roster db' chess_club = roster seeded chess_club ++ ["new@mergington.edu"%string]
    /\ In "new@mergington.edu"%string (roster db' chess_club)
    /\ (forall e, In e (roster db' chess_club)
                  <-> In e (roster seeded chess_club)
                      \/ e = "new@mergington.edu"%string)
    /\ headcount db' chess_club = headcount seeded chess_club + 1
    /\ contains (message msg) "Chess Club"
    /\ contains (message msg) "new@mergington.edu".
Proof.
  apply (signup_success "Chess Club" "new@mergington.edu" seeded chess_club).
  - reflexivity.
  - vm_compute. intros [H | [H | []]]; discriminate.
  - vm_compute. reflexivity.
Defined.

(** ** Unregister *)

Lemma roster_after_unregister (db : Database) (a : Activity.t)
  (email : string) (p : Participant.t) :
  NoDup (map Participant.id (participants db)) ->
  find_participant db a email = Some p ->
  roster (flush_one db (PendingDelete p)) a = remove_first email (roster db a).
Proof.
  intros Hnd Hp. unfold roster, participants_of. cbn [flush_one participants].
  now apply roster_after_delete_found.
Qed.

(** C5. Unregister raises-iff: in a store that meets the schema constraints,
    unregister fails with NotFound exactly when no activity has the name and
    with NotEnrolled exactly when the activity exists but does not hold the
    email; otherwise it succeeds and returns its message, and takes one
    enrollment of the email out of the roster of that activity: the count
    drops by one, every other email stays, and the email itself is gone when
    it was enrolled once. *)
Theorem unregister_cases (activity_name email : string) (db : Database) :
  well_formed db ->
  (fst (unregister_from_activity activity_name email db) = inl NotFound
   <-> ~ activity_exists db activity_name)
  /\ (fst (unregister_from_activity activity_name email db) = inl NotEnrolled
      <-> exists a, find_activity db activity_name = Some a
                    /\ ~ In email (roster db a))
  /\ (forall a,
        find_activity db activity_name = Some a ->
        In email (roster db a) ->
        exists db',
          unregister_from_activity activity_name email db
          = (inr (unregister_message activity_name email), db')
          /\ roster db' a = remove_first email (roster db a)
          /\ headcount db' a = headcount db a - 1
          /\ (forall e, e <> email ->
                        (In e (roster db' a) <-> In e (roster db a)))
          /\ (NoDup (roster db a) -> ~ In email (roster db' a))).
Proof.
  intros Hwf. rewrite unregister_from_activity_eq.
  destruct (find_activity db activity_name) as [a|] eqn:Ha.
  - assert (Hex : activity_exists db activity_name).
    { apply find_activity_Some in Ha as [Hin Hname]. now exists a. }
    destruct (find_participant db a email) as [p|] eqn:Hp.
    + assert (Hin : In email (roster db a)).
      { destruct (in_dec string_dec email (roster db a)) as [H | H];
          [exact H |].
        apply find_participant_None in H. congruence. }
      cbn [fst]. refine (conj _ (conj _ _)).
      * split; intros; settle.
      * split; intros; settle.
      * intros a' E _. injection E as <-.
        exists (flush_one db (PendingDelete p)).
        pose proof (roster_after_unregister db a email p
                      (participant_pk _ Hwf) Hp) as Hroster.
        split; [reflexivity |]. split; [exact Hroster |].
        unfold headcount. rewrite Hroster. repeat split.
        -- pose proof (remove_first_length email _ Hin). lia.
        -- now apply remove_first_other.
        -- now apply remove_first_other.
        -- intros Hnd. now apply remove_first_NoDup.
    + apply find_participant_None in Hp.
      cbn [fst]. refine (conj _ (conj _ _)).
      * split; intros; settle.
      * split; intros; settle.
      * intros; settle.
  - cbn [fst]. refine (conj _ (conj _ _)).
    + split; intros; settle. now apply find_activity_None.
    + split; intros; settle.
    + intros; settle.
Qed.

Lemma unregister_cases_witness :
  exists db',
    unregister_from_activity "Chess Club" "daniel@mergington.edu" seeded
    = (inr (unregister_message "Chess Club" "daniel@mergington.edu"), db')
    /\ roster db' chess_club
       = remove_first "daniel@mergington.edu" (roster seeded chess_club)
    /\ headcount db' chess_club = headcount seeded chess_club - 1
    /\ (forall e, e <> "daniel@mergington.edu"%string ->
                  (In e (roster db' chess_club)
                   <-> In e (roster seeded chess_club)))
    /\ (NoDup (roster seeded chess_club) ->
        ~ In "daniel@mergington.edu"%string (roster db' chess_club)).
Proof.
  destruct (unregister_cases "Chess Club" "daniel@mergington.edu" seeded)
    as (_ & _ & H).
  - apply well_formedb_sound. vm_compute. reflexivity.
  - apply (H chess_club).
    + reflexivity.
    + simpl. right. left. reflexivity.
Defined.

(** ** Signup, then unregister *)

Lemma find_last (A : Type) (f : A -> bool) (l : list A) (x : A) :
  find f l = None -> f x = true -> find f (l ++ [x]) = Some x.
Proof.
  induction l as [|y l IH]; simpl; intros Hnone Hx.
  - now rewrite Hx.
  - destruct (f y); [discriminate | auto].
Qed.

Lemma Database_eta (db : Database) :
  mkDatabase (activities db) (participants db) = db.
Proof. now destruct db. Qed.

(** The row a signup inserts is the one the matching unregister finds and
    deletes. *)
Lemma unregister_after_add (activity_name email : string) (db : Database)
  (a : Activity.t) :
  find_activity db activity_name = Some a ->
  ~ In email (roster db a) ->
  unregister_from_activity activity_name email
    (flush_one db (PendingAdd email (Activity.id a)))
  = (inr (unregister_message activity_name email), db).
Proof.
  intros Ha Hnew. rewrite unregister_from_activity_eq.
  unfold find_activity in *. rewrite flush_one_activities, Ha.
  apply find_participant_None in Hnew.
  unfold find_participant in *. cbn [flush_one participants].
  rewrite (find_last _ _ _ _ Hnew);
    [| cbn; now rewrite Z.eqb_refl, String.eqb_refl].
  f_equal. cbn [flush_one participants activities Participant.id].
  rewrite filter_app. cbn [filter Participant.id]. rewrite Z.eqb_refl.
  cbn [negb]. rewrite app_nil_r, delete_absent_key;
    [apply Database_eta | apply next_rowid_fresh].
Qed.

(** C6. Symmetric round trip: when signup(A, e) succeeds, unregister(A, e)
    run right after it succeeds too and gives back the store the signup
    started from; so the roster of every activity, the one of A among them,
    has the emails, the order and the size it had. *)
Theorem signup_unregister_round_trip (activity_name email : string)
  (db db1 : Database) (msg : Message) :
  signup_for_activity activity_name email db = (inr msg, db1) ->
  exists db2,
    unregister_from_activity activity_name email db1
    = (inr (unregister_message activity_name email), db2)
    /\ db2 = db
    /\ forall a, roster db2 a = roster db a
                 /\ headcount db2 a = headcount db a.
Proof.
  rewrite signup_for_activity_eq.
  destruct (find_activity db activity_name) as [a|] eqn:Ha; [| discriminate].
  destruct (existsb _ _) eqn:Hdup; [discriminate |].
  destruct (_ >=? _); [discriminate |].
  intros E. injection E as _ <-. apply existsb_eqb_not_In in Hdup.
  exists db. split; [now apply unregister_after_add | auto].
Qed.

Lemma signup_unregister_round_trip_witness :
  roster (snd (signup_for_activity "Chess Club" "new@mergington.edu" seeded))
         chess_club
  = ["michael@mergington.edu"; "daniel@mergington.edu";
     "new@mergington.edu"]%string
  /\ exists db2,
       unregister_from_activity "Chess Club" "new@mergington.edu"
         (snd (signup_for_activity "Chess Club" "new@mergington.edu" seeded))
       = (inr (unregister_message "Chess Club" "new@mergington.edu"), db2)
       /\ db2 = seeded
       /\ forall a, roster db2 a = roster seeded a
                    /\ headcount db2 a = headcount seeded a.
Proof.
  split; [reflexivity |].
  apply (signup_unregister_round_trip "Chess Club" "new@mergington.edu" seeded
           _ (signup_message "Chess Club" "new@mergington.edu")).
  reflexivity.
Defined.

(** ** Failures *)

(** C7. Atomicity on error: a signup or an unregister that fails, with
    NotFound, AlreadyEnrolled, CapacityExceeded or NotEnrolled, leaves the
    whole store as it was; and when a signup succeeds, the same signup run
    again fails with AlreadyEnrolled and changes nothing. *)
Theorem failure_keeps_store (activity_name email : string) (db : Database) :
  (forall err,
     fst (signup_for_activity activity_name email db) = inl err ->
     snd (signup_for_activity activity_name email db) = db
     /\ (err = NotFound \/ err = AlreadyEnrolled \/ err = CapacityExceeded))
  /\ (forall err,
        fst (unregister_from_activity activity_name email db) = inl err ->
        snd (unregister_from_activity activity_name email db) = db
        /\ (err = NotFound \/ err = NotEnrolled))
  /\ (forall msg db1,
        signup_for_activity activity_name email db = (inr msg, db1) ->
        signup_for_activity activity_name email db1
        = (inl AlreadyEnrolled, db1)).
Proof.
  refine (conj _ (conj _ _)).
  - intros err. rewrite signup_for_activity_eq.
    destruct (find_activity db activity_name) as [a|].
    + destruct (existsb _ _); [| destruct (_ >=? _)]; cbn [fst snd];
        intros E; try discriminate; injection E as <-; auto.
    + cbn [fst snd]. intros E. injection E as <-. auto.
  - intros err. rewrite unregister_from_activity_eq.
    destruct (find_activity db activity_name) as [a|].
    + destruct (find_participant db a email); cbn [fst snd];
        intros E; try discriminate; injection E as <-; auto.
    + cbn [fst snd]. intros E. injection E as <-. auto.
  - intros msg db1. rewrite signup_for_activity_eq.
    destruct (find_activity db activity_name) as [a|] eqn:Ha; [| discriminate].
    destruct (existsb _ _); [discriminate |].
    destruct (_ >=? _); [discriminate |].
    intros E. apply (f_equal snd) in E. cbn [snd] in E. subst db1.
    rewrite signup_for_activity_eq.
    unfold find_activity in *. rewrite flush_one_activities, Ha.
    assert (Hin : In email (roster (flush_one db (PendingAdd email
                                                    (Activity.id a))) a)).
    { rewrite roster_after_add, Z.eqb_refl. apply in_or_app. right. now left. }
    apply existsb_eqb_In in Hin. now rewrite Hin.
Qed.

Lemma failure_keeps_store_witness :
  (snd (signup_for_activity "Solo" "second@mergington.edu" solo_full)
   = solo_full
   /\ (CapacityExceeded = NotFound \/ CapacityExceeded = AlreadyEnrolled
       \/ CapacityExceeded = CapacityExceeded))
  /\ (snd (unregister_from_activity "Solo" "second@mergington.edu" solo_full)
      = solo_full
      /\ (NotEnrolled = NotFound \/ NotEnrolled = NotEnrolled))
  /\ signup_for_activity "Solo" "first@mergington.edu"
       (snd (signup_for_activity "Solo" "first@mergington.edu" solo_empty))
     = (inl AlreadyEnrolled,
        snd (signup_for_activity "Solo" "first@mergington.edu" solo_empty)).
Proof.
  refine (conj _ (conj _ _)).
  - destruct (failure_keeps_store "Solo" "second@mergington.edu" solo_full)
      as (H & _ & _).
    apply H. reflexivity.
  - destruct (failure_keeps_store "Solo" "second@mergington.edu" solo_full)
      as (_ & H & _).
    apply H. reflexivity.
  - destruct (failure_keeps_store "Solo" "first@mergington.edu" solo_empty)
      as (_ & _ & H).
    apply (H (signup_message "Solo" "first@mergington.edu")). reflexivity.
Defined.

(** ** Frame *)

Lemma other_activity_other_id (db : Database) (a b : Activity.t) :
  well_formed db ->
  In a (activities db) -> In b (activities db) -> a <> b ->
  Activity.id a <> Activity.id b.
Proof.
  intros Hwf Ha Hb Hne E. apply Hne.
  exact (key_determines_row Activity.id _ a b (activity_pk _ Hwf) Ha Hb E).
Qed.

(** C9. Frame effect: in a store that meets the schema constraints, a signup
    or an unregister call on activity A, whether it succeeds or fails, leaves
    the table of activities as it is, hence the name, the description, the
    schedule and the capacity of A and of every other activity, and leaves
    the roster of every activity other than A as it is. *)
Theorem frame_effect (activity_name email : string) (db : Database) :
  well_formed db ->
  (activities (snd (signup_for_activity activity_name email db))
   = activities db
   /\ find_activity (snd (signup_for_activity activity_name email db))
        activity_name
      = find_activity db activity_name
   /\ forall b,
        In b (activities db) ->
        find_activity db activity_name <> Some b ->
        roster (snd (signup_for_activity activity_name email db)) b
        = roster db b)
  /\ (activities (snd (unregister_from_activity activity_name email db))
      = activities db
      /\ find_activity (snd (unregister_from_activity activity_name email db))
           activity_name
         = find_activity db activity_name
      /\ forall b,
           In b (activities db) ->
           find_activity db activity_name <> Some b ->
           roster (snd (unregister_from_activity activity_name email db)) b
           = roster db b).
Proof.
  intros Hwf. split.
  - assert (Hact : activities (snd (signup_for_activity activity_name email db))
                   = activities db)
      by exact (step_activities db (Signup activity_name email)).
    split; [exact Hact |]. split; [unfold find_activity; now rewrite Hact |].
    intros b Hb Hother. rewrite signup_for_activity_eq.
    destruct (find_activity db activity_name) as [a|] eqn:Ha; [| reflexivity].
    destruct (existsb _ _); [reflexivity |].
    destruct (_ >=? _); [reflexivity |].
    cbn [snd]. rewrite roster_after_add.
    apply find_activity_Some in Ha as [Hin _].
    assert (Hid : Activity.id a <> Activity.id b)
      by (apply (other_activity_other_id db); congruence).
    apply Z.eqb_neq in Hid. rewrite Hid. apply app_nil_r.
  - assert (Hact : activities
                     (snd (unregister_from_activity activity_name email db))
                   = activities db)
      by exact (step_activities db (Unregister activity_name email)).
    split; [exact Hact |]. split; [unfold find_activity; now rewrite Hact |].
    intros b Hb Hother. rewrite unregister_from_activity_eq.
    destruct (find_activity db activity_name) as [a|] eqn:Ha; [| reflexivity].
    destruct (find_participant db a email) as [p|] eqn:Hp; [| reflexivity].
    cbn [snd]. apply find_activity_Some in Ha as [Hin _].
    apply find_participant_Some in Hp as (Hp & Hpa & _).
    apply roster_after_delete_elsewhere;
      [apply (participant_pk _ Hwf) | exact Hp |].
    rewrite Hpa. apply (other_activity_other_id db); congruence.
Qed.

Lemma frame_effect_witness :
  roster (snd (signup_for_activity "Chess Club" "new@mergington.edu" seeded))
         programming_class
  = roster seeded programming_class
  /\ roster (snd (unregister_from_activity "Chess Club"
                    "daniel@mergington.edu" seeded))
            programming_class
     = roster seeded programming_class.
Proof.
  split.
  - destruct (frame_effect "Chess Club" "new@mergington.edu" seeded)
      as ((_ & _ & H) & _).
    + apply well_formedb_sound. vm_compute. reflexivity.
    + apply H; [simpl; right; left; reflexivity | discriminate].
  - destruct (frame_effect "Chess Club" "daniel@mergington.edu" seeded)
      as (_ & _ & _ & H).
    + apply well_formedb_sound. vm_compute. reflexivity.
    + apply H; [simpl; right; left; reflexivity | discriminate].
Defined.

(** ** Emails are compared as they are written *)

(** C10. Exact string identity for emails: signup reports a duplicate
    exactly when the very same string is in the roster, and two emails that
    are different strings, such as two spellings that differ only in letter
    case, are different participants: the presence of one does not make the
    other a duplicate, both can be enrolled in the same activity at once, and
    unregistering one leaves the other enrolled. *)
Theorem email_identity_exact (activity_name e1 e2 : string) (db : Database)
  (a : Activity.t) :
  well_formed db ->
  find_activity db activity_name = Some a ->
  e1 <> e2 ->
  (fst (signup_for_activity activity_name e2 db) = inl AlreadyEnrolled
   <-> In e2 (roster db a))
  /\ (fst (unregister_from_activity activity_name e2 db) = inl NotEnrolled
      <-> ~ In e2 (roster db a))
  /\ (~ In e1 (roster db a) -> ~ In e2 (roster db a) ->
      headcount db a + 2 <= Activity.max_participants a ->
      exists db1 db2,
        signup_for_activity activity_name e1 db
        = (inr (signup_message activity_name e1), db1)
        /\ signup_for_activity activity_name e2 db1
           = (inr (signup_message activity_name e2), db2)
        /\ In e1 (roster db2 a) /\ In e2 (roster db2 a))
  /\ (In e2 (roster db a) ->
      In e2 (roster (snd (unregister_from_activity activity_name e1 db)) a)).
Proof.
  intros Hwf Ha Hne. refine (conj _ (conj _ (conj _ _))).
  - rewrite signup_for_activity_eq, Ha.
    destruct (existsb (String.eqb e2) (roster db a)) eqn:Hdup.
    + apply existsb_eqb_In in Hdup. cbn [fst]. tauto.
    + apply existsb_eqb_not_In in Hdup.
      destruct (_ >=? _); cbn [fst]; split; intros; settle.
  - rewrite unregister_from_activity_eq, Ha.
    destruct (find_participant db a e2) as [p|] eqn:Hp.
    + assert (Hin : In e2 (roster db a)).
      { destruct (in_dec string_dec e2 (roster db a)) as [H | H];
          [exact H |].
        apply find_participant_None in H. congruence. }
      cbn [fst]. split; intros; settle.
    + apply find_participant_None in Hp. cbn [fst]. tauto.
  - intros H1 H2 Hroom.
    exists (flush_one db (PendingAdd e1 (Activity.id a))),
           (flush_one (flush_one db (PendingAdd e1 (Activity.id a)))
                      (PendingAdd e2 (Activity.id a))).
    split; [apply signup_succeeds; [assumption | assumption | lia] |].
    split.
    + apply signup_succeeds.
      * now rewrite find_activity_flush_one.
      * rewrite roster_after_signup, in_app_iff. simpl. intuition congruence.
      * unfold headcount in *. rewrite roster_after_signup, length_app.
        simpl. lia.
    + rewrite !roster_after_signup, !in_app_iff. simpl. tauto.
  - intros Hin. rewrite unregister_from_activity_eq, Ha.
    destruct (find_participant db a e1) as [p|] eqn:Hp; [| exact Hin].
    cbn [snd].
    rewrite (roster_after_unregister db a e1 p (participant_pk _ Hwf) Hp).
    apply remove_first_other; [congruence | exact Hin].
Qed.

Lemma email_identity_exact_witness :
  exists db1 db2,
    signup_for_activity "Chess Club" "A@x" seeded
    = (inr (signup_message "Chess Club" "A@x"), db1)
    /\ signup_for_activity "Chess Club" "a@x" db1
       = (inr (signup_message "Chess Club" "a@x"), db2)
    /\ In "A@x"%string (roster db2 chess_club)
    /\ In "a@x"%string (roster db2 chess_club).
Proof.
  destruct (email_identity_exact "Chess Club" "A@x" "a@x" seeded chess_club)
    as (_ & _ & H & _).
  - apply well_formedb_sound. vm_compute. reflexivity.
  - reflexivity.
  - discriminate.
  - apply H.
    + vm_compute. intros [E | [E | []]]; discriminate.
    + vm_compute. intros [E | [E | []]]; discriminate.
    + vm_compute. discriminate.
Defined.

(** ** The calls seen from the rosters: lemmas *)

Lemma step_call (db : Database) (op : operation) :
  step db op = snd (call op db).
Proof. now destruct op. Qed.

Lemma remove_first_absent (e : string) (l : list string) :
  ~ In e l -> remove_first e l = l.
Proof.
  induction l as [|x l IH]; simpl; [reflexivity |].
  intros H. destruct (String.eqb_spec x e) as [E | E]; [tauto |].
  f_equal. apply IH. tauto.
Qed.

Lemma find_participant_existsb (db : Database) (a : Activity.t)
  (email : string) :
  existsb (String.eqb email) (roster db a)
  = match find_participant db a email with Some _ => true | None => false end.
Proof.
  destruct (find_participant db a email) as [p|] eqn:Hp.
  - apply existsb_eqb_In.
    destruct (in_dec string_dec email (roster db a)) as [H | H]; [exact H |].
    apply find_participant_None in H. congruence.
  - apply existsb_eqb_not_In. now apply find_participant_None.
Qed.

(** The answer of a call depends on the store only through the activity
    found and its roster. *)
Lemma call_result_eq (op : operation) (db : Database) :
  fst (call op db)
  = call_result op (find_activity db (target op))
      match find_activity db (target op) with
      | Some a => roster db a
      | None => []
      end.
Proof.
  destruct op as [n e | n e]; simpl.
  - rewrite signup_for_activity_eq.
    destruct (find_activity db n) as [a|]; [| reflexivity]. simpl.
    fold (headcount db a).
    destruct (existsb _ _); [reflexivity |]. now destruct (_ >=? _).
  - rewrite unregister_from_activity_eq.
    destruct (find_activity db n) as [a|]; [| reflexivity]. simpl.
    rewrite find_participant_existsb.
    now destruct (find_participant db a e).
Qed.

(** The effect of a call on every roster. *)
Lemma roster_effect_eq (op : operation) (db : Database) (c : Activity.t) :
  well_formed db ->
  roster (step db op) c
  = roster_effect op (find_activity db (target op)) c (roster db c).
Proof.
  intros Hwf. unfold roster_effect, own_effect.
  destruct op as [n e | n e]; simpl.
  - rewrite signup_for_activity_eq.
    destruct (find_activity db n) as [a|]; [| reflexivity].
    destruct (Z.eqb_spec (Activity.id a) (Activity.id c)) as [E | E].
    + unfold headcount. rewrite (roster_same_id db a c E).
      destruct (existsb _ _); [reflexivity |]. cbn [orb].
      destruct (_ >=? _); [reflexivity |].
      cbn [snd]. rewrite roster_after_add.
      apply Z.eqb_eq in E. now rewrite E.
    + destruct (existsb _ _); [reflexivity |].
      destruct (_ >=? _); [reflexivity |].
      cbn [snd]. rewrite roster_after_add.
      apply Z.eqb_neq in E. rewrite E. apply app_nil_r.
  - rewrite unregister_from_activity_eq.
    destruct (find_activity db n) as [a|]; [| reflexivity].
    destruct (find_participant db a e) as [p|] eqn:Hp; cbn [snd].
    + destruct (Z.eqb_spec (Activity.id a) (Activity.id c)) as [E | E].
      * rewrite <- (roster_same_id _ a c E), <- (roster_same_id db a c E).
        apply roster_after_unregister; [apply (participant_pk _ Hwf) | exact Hp].
      * apply find_participant_Some in Hp as (Hin & Hpa & _).
        apply roster_after_delete_elsewhere;
          [apply (participant_pk _ Hwf) | exact Hin | congruence].
    + destruct (Z.eqb_spec (Activity.id a) (Activity.id c)) as [E | E];
        [| reflexivity].
      apply find_participant_None in Hp.
      rewrite (roster_same_id db a c E) in Hp.
      now rewrite remove_first_absent.
Qed.

Lemma find_activity_step (db : Database) (op : operation)
  (activity_name : string) :
  find_activity (step db op) activity_name = find_activity db activity_name.
Proof. unfold find_activity. now rewrite step_activities. Qed.

(** ** Invariants of the store *)

Lemma referential_integrityb_sound (db : Database) :
  referential_integrityb db = true -> referential_integrity db.
Proof.
  unfold referential_integrityb, referential_integrity. intros H p Hp.
  rewrite forallb_forall in H. specialize (H p Hp).
  apply existsb_exists in H as (a & Ha & E). apply Z.eqb_eq in E. eauto.
Qed.

Lemma flush_one_referential_integrity (db : Database) (c : pending) :
  referential_integrity db ->
  (forall email i, c = PendingAdd email i ->
                   exists a, In a (activities db) /\ Activity.id a = i) ->
  referential_integrity (flush_one db c).
Proof.
  intros Hri Hc p Hp. rewrite flush_one_activities.
  destruct c as [email i | q]; cbn [flush_one participants] in Hp.
  - apply in_app_or in Hp as [Hp | [<- | []]]; [now apply Hri |].
    exact (Hc email i eq_refl).
  - apply filter_In in Hp as [Hp _]. now apply Hri.
Qed.

Lemma step_referential_integrity (db : Database) (op : operation) :
  referential_integrity db -> referential_integrity (step db op).
Proof.
  intros Hri. destruct op as [n e | n e]; simpl.
  - rewrite signup_for_activity_eq.
    destruct (find_activity db n) as [a|] eqn:Ha; [| exact Hri].
    destruct (existsb _ _); [exact Hri |].
    destruct (_ >=? _); [exact Hri |].
    cbn [snd]. apply flush_one_referential_integrity; [exact Hri |].
    intros email i E. injection E as _ <-. exists a.
    apply find_activity_Some in Ha as [Hin _]. now split.
  - rewrite unregister_from_activity_eq.
    destruct (find_activity db n) as [a|]; [| exact Hri].
    destruct (find_participant db a e) as [p|]; [| exact Hri].
    cbn [snd]. apply flush_one_referential_integrity; [exact Hri |].
    intros email i E. discriminate.
Qed.

Lemma run_referential_integrity (ops : list operation) (db : Database) :
  referential_integrity db -> referential_integrity (run ops db).
Proof.
  revert db; induction ops as [|op ops IH]; intros db H; simpl; [exact H |].
  apply IH. now apply step_referential_integrity.
Qed.

Lemma run_roster_ok (ops : list operation) (db : Database) (a : Activity.t) :
  well_formed db -> In a (activities db) ->
  roster_ok db a -> roster_ok (run ops db) a.
Proof.
  revert db; induction ops as [|op ops IH]; intros db Hwf Ha Hok; simpl;
    [exact Hok |].
  apply IH.
  - now apply step_well_formed.
  - now rewrite step_activities.
  - destruct Hok as [Hcap Hnd]. split;
      [now apply step_headcount | now apply step_NoDup].
Qed.

(** X1. The schema constraints are kept: from a store in which the ids of
    each table and the activity names are distinct, any sequence of signup
    and unregister calls leads to such a store again, with the very same
    table of activities; the id given to a new enrollment is never one in
    use. *)
Theorem schema_constraints_kept (ops : list operation) (db : Database) :
  well_formed db ->
  well_formed (run ops db) /\ activities (run ops db) = activities db.
Proof.
  intros Hwf. split; [now apply run_well_formed | apply run_activities].
Qed.

Lemma schema_constraints_kept_witness :
  well_formed (run scenario seeded)
  /\ activities (run scenario seeded) = activities seeded.
Proof.
  apply (schema_constraints_kept scenario seeded).
  apply well_formedb_sound. vm_compute. reflexivity.
Defined.

(** X2. Referential integrity is kept: when every enrollment row refers to
    an activity of the store, it is still so after any sequence of signup and
    unregister calls. *)
Theorem referential_integrity_kept (ops : list operation) (db : Database) :
  referential_integrity db -> referential_integrity (run ops db).
Proof. apply run_referential_integrity. Qed.

Lemma referential_integrity_kept_witness :
  referential_integrity (run scenario seeded).
Proof.
  apply (referential_integrity_kept scenario seeded).
  apply referential_integrityb_sound. vm_compute. reflexivity.
Defined.

Lemma roster_okb_sound (db : Database) (a : Activity.t) :
  roster_okb db a = true -> roster_ok db a.
Proof.
  unfold roster_okb, roster_ok. intros H.
  apply andb_true_iff in H as [Hcap Hnd]. split.
  - now apply Z.leb_le.
  - exact (distinct_NoDup String.eqb String.eqb_spec _ Hnd).
Qed.

Lemma seeded_roster_ok (a : Activity.t) :
  In a (activities seeded) -> roster_ok seeded a.
Proof.
  intros Ha. apply roster_okb_sound. revert a Ha. apply forallb_forall.
  vm_compute. reflexivity.
Qed.

(** X3. Every store the application reaches from its seed data, by any
    sequence of signup and unregister calls, meets the schema constraints
    and referential integrity, and each of its activities holds no more
    participants than its [max_participants] and no email twice. *)
Theorem reachable_store_invariants (ops : list operation) :
  well_formed (run ops seeded)
  /\ referential_integrity (run ops seeded)
  /\ forall a, In a (activities (run ops seeded)) ->
               roster_ok (run ops seeded) a.
Proof.
  split; [apply run_well_formed, seeded_well_formed |].
  split.
  - apply run_referential_integrity, referential_integrityb_sound.
    vm_compute. reflexivity.
  - intros a Ha. rewrite run_activities in Ha.
    apply run_roster_ok;
      [apply seeded_well_formed | exact Ha | now apply seeded_roster_ok].
Qed.

(** ** The listing and the calls *)

Lemma dict_set_keys {V} (k : string) (v : V) (d : list (string * V))
  (k' : string) :
  In k' (map fst (dict_set k v d)) <-> k' = k \/ In k' (map fst d).
Proof.
  induction d as [|[k0 v0] d IH]; simpl.
  - intuition.
  - destruct (String.eqb_spec k0 k) as [E | E]; simpl.
    + subst. intuition.
    + rewrite IH. intuition.
Qed.

Lemma dict_set_NoDup {V} (k : string) (v : V) (d : list (string * V)) :
  NoDup (map fst d) -> NoDup (map fst (dict_set k v d)).
Proof.
  induction d as [|[k0 v0] d IH]; simpl; intros Hnd.
  - constructor; [tauto | constructor].
  - inversion Hnd as [|? ? Hk Hd]; subst.
    destruct (String.eqb_spec k0 k) as [E | E]; simpl.
    + subst. now constructor.
    + constructor; [| auto]. rewrite dict_set_keys. intuition.
Qed.

(** The keys of the dict that the loop of [get_activities] builds. *)
Lemma listing_keys {V} (entry : Activity.t -> V) (l : list Activity.t)
  (acc : list (string * V)) :
  NoDup (map fst acc) ->
  NoDup (map fst (fold_left (fun result a =>
                               dict_set (Activity.name a) (entry a) result)
                            l acc))
  /\ forall n,
       In n (map fst (fold_left (fun result a =>
                                   dict_set (Activity.name a) (entry a) result)
                                l acc))
       <-> In n (map fst acc) \/ In n (map Activity.name l).
Proof.
  revert acc. induction l as [|a l IH]; intros acc Hnd; simpl.
  - split; [exact Hnd | intuition].
  - destruct (IH (dict_set (Activity.name a) (entry a) acc)
                 (dict_set_NoDup _ _ _ Hnd)) as [IH1 IH2].
    split; [exact IH1 |]. intros n. rewrite IH2, dict_set_keys. intuition.
Qed.

(** X4. The listing: [get_activities] never raises and leaves the store as
    it is; its keys are pairwise different and are exactly the names of the
    activities of the store; and when the names are distinct, as the schema
    requires, it has one entry per activity, in table order, with the
    description, the schedule, the capacity and the roster of the activity. *)
Theorem get_activities_listing (db : Database) :
  exists listing,
    get_activities db = (inr listing, db)
    /\ NoDup (map fst listing)
    /\ (forall n, In n (map fst listing) <-> activity_exists db n)
    /\ (NoDup (map Activity.name (activities db)) ->
        listing = map (fun a => (Activity.name a, activity_info db a))
                      (activities db)).
Proof.
  eexists. split; [reflexivity |].
  destruct (listing_keys (activity_info db) (activities db) [])
    as [Hnd Hkeys]; [constructor |].
  split; [exact Hnd |]. split.
  - intros n. unfold activity_exists.
    etransitivity; [apply Hkeys |]. simpl. rewrite in_map_iff.
    split.
    + intros [[] | (a & E & Hin)]. now exists a.
    + intros (a & Hin & E). right. now exists a.
  - intros Hnames. pose proof (get_activities_eq db Hnames) as E.
    apply (f_equal fst) in E. cbn [fst] in E.
    unfold get_activities, get_db, get_activities_body, bind_request,
      query_activity_all, SessionLocal in E. cbn [bind fst] in E.
    injection E as E. exact E.
Qed.

Lemma get_activities_listing_witness :
  fst (get_activities solo_full)
  = inr [("Solo"%string,
          mkActivityInfo "One place only" "Mondays" 1
                         ["first@mergington.edu"%string])].
Proof.
  destruct (get_activities_listing solo_full) as (l & E & _ & _ & H).
  rewrite E. cbn [fst]. f_equal. apply H.
  apply (distinct_NoDup String.eqb String.eqb_spec). vm_compute. reflexivity.
Defined.

Lemma find_activity_unique (db : Database) (a : Activity.t) :
  NoDup (map Activity.name (activities db)) ->
  In a (activities db) ->
  find_activity db (Activity.name a) = Some a.
Proof.
  intros Hnd Ha.
  destruct (find_activity db (Activity.name a)) as [b|] eqn:Hb.
  - apply find_activity_Some in Hb as [Hin Hname]. f_equal.
    exact (key_determines_row Activity.name _ b a Hnd Hin Ha Hname).
  - exfalso. apply find_activity_None in Hb. apply Hb. now exists a.
Qed.

(** X5. The listing after a call: in a store that meets the schema
    constraints, the listing taken after a signup or an unregister call,
    successful or not, has the entries of the listing taken before it, in the
    same order, and only the participants of the activity the call names can
    differ: a successful signup puts the email last, a successful unregister
    takes out its first occurrence. *)
Theorem listing_after_call (op : operation) (db : Database) :
  well_formed db ->
  get_activities (step db op)
  = (inr (map (fun a =>
                 (Activity.name a,
                  mkActivityInfo
                    (Activity.description a) (Activity.schedule a)
                    (Activity.max_participants a)
                    (if String.eqb (Activity.name a) (target op)
                     then own_effect op a (roster db a)
                     else roster db a)))
              (activities db)),
     step db op).
Proof.
  intros Hwf.
  rewrite get_activities_eq
    by (rewrite step_activities; apply (activity_name_unique _ Hwf)).
  rewrite step_activities. f_equal. f_equal. apply map_ext_in.
  intros a Ha. unfold activity_info. f_equal. f_equal.
  rewrite (roster_effect_eq op db a Hwf). unfold roster_effect.
  destruct (String.eqb_spec (Activity.name a) (target op)) as [E | E].
  - rewrite <- E, (find_activity_unique db a (activity_name_unique _ Hwf) Ha).
    now rewrite Z.eqb_refl.
  - destruct (find_activity db (target op)) as [b|] eqn:Hb; [| reflexivity].
    apply find_activity_Some in Hb as [Hin Hname].
    assert (Hid : Activity.id b <> Activity.id a).
    { apply (other_activity_other_id db); try assumption. congruence. }
    apply Z.eqb_neq in Hid. now rewrite Hid.
Qed.

Lemma listing_after_call_witness :
  fst (get_activities
         (step solo_full (Unregister "Solo" "first@mergington.edu")))
  = inr [("Solo"%string, mkActivityInfo "One place only" "Mondays" 1 [])].
Proof.
  rewrite (listing_after_call (Unregister "Solo" "first@mergington.edu")
             solo_full).
  - reflexivity.
  - apply well_formedb_sound. vm_compute. reflexivity.
Defined.

(** ** Seeding *)

Lemma fold_add_activities (i : Z) (emails : list string) (db : Database) :
  activities (fold_left (fun d email => flush_one d (PendingAdd email i))
                        emails db)
  = activities db.
Proof.
  revert db. induction emails as [|e l IH]; intros db; simpl; [reflexivity |].
  now rewrite IH.
Qed.

Lemma add_seed_activities_length (db : Database) (act : Seed) :
  List.length (activities (add_seed db act))
  = S (List.length (activities db)).
Proof.
  unfold add_seed. rewrite fold_add_activities. cbn [activities].
  rewrite length_app. simpl. lia.
Qed.

Lemma fold_add_seed_length (l : list Seed) (db : Database) :
  List.length (activities (fold_left add_seed l db))
  = (List.length (activities db) + List.length l)%nat.
Proof.
  revert db. induction l as [|act l IH]; intros db; simpl; [lia |].
  rewrite IH, add_seed_activities_length. lia.
Qed.

Lemma init_db_populated (db : Database) :
  activities db <> [] -> init_db db = db.
Proof.
  intros H. unfold init_db. destruct (activities db); [congruence |].
  reflexivity.
Qed.

Lemma init_db_activities (db : Database) : activities (init_db db) <> [].
Proof.
  unfold init_db. destruct (activities db) as [|a l] eqn:E.
  - cbn [List.length Z.of_nat Z.eqb]. intros H.
    apply (f_equal (@List.length _)) in H.
    rewrite fold_add_seed_length, E in H. discriminate.
  - cbn. rewrite E. discriminate.
Qed.

(** X6. Seeding happens once: [init_db] leaves a store that has activities
    as it is, so running it again after it has run, or after any sequence of
    signup and unregister calls that followed it, changes nothing; a restart
    neither reseeds nor loses enrollments. *)
Theorem init_db_once (db : Database) :
  (activities db <> [] -> init_db db = db)
  /\ forall ops, init_db (run ops (init_db db)) = run ops (init_db db).
Proof.
  split; [apply init_db_populated |].
  intros ops. apply init_db_populated. rewrite run_activities.
  apply init_db_activities.
Qed.

Lemma init_db_once_witness :
  init_db solo_full = solo_full
  /\ init_db (run scenario (init_db solo_empty))
     = run scenario (init_db solo_empty).
Proof.
  destruct (init_db_once solo_full) as [H _].
  destruct (init_db_once solo_empty) as [_ H'].
  split; [apply H; discriminate | apply H'].
Defined.

(** ** Calls that follow one another *)

Lemma find_participant_In (db : Database) (a : Activity.t) (email : string)
  (p : Participant.t) :
  find_participant db a email = Some p -> In email (roster db a).
Proof.
  intros Hp. destruct (in_dec string_dec email (roster db a)) as [H | H];
    [exact H |].
  apply find_participant_None in H. congruence.
Qed.

Lemma unregister_succeeds (activity_name email : string) (db : Database)
  (a : Activity.t) :
  well_formed db ->
  find_activity db activity_name = Some a ->
  In email (roster db a) ->
  exists p,
    unregister_from_activity activity_name email db
    = (inr (unregister_message activity_name email),
       flush_one db (PendingDelete p))
    /\ roster (flush_one db (PendingDelete p)) a
       = remove_first email (roster db a).
Proof.
  intros Hwf Ha Hin. rewrite unregister_from_activity_eq, Ha.
  destruct (find_participant db a email) as [p|] eqn:Hp.
  - exists p. split; [reflexivity |].
    apply roster_after_unregister; [apply (participant_pk _ Hwf) | exact Hp].
  - apply find_participant_None in Hp. contradiction.
Qed.

Lemma unregister_success_inv (activity_name email : string) (db db1 : Database)
  (a : Activity.t) (msg : Message) :
  well_formed db ->
  find_activity db activity_name = Some a ->
  unregister_from_activity activity_name email db = (inr msg, db1) ->
  In email (roster db a)
  /\ find_activity db1 activity_name = Some a
  /\ roster db1 a = remove_first email (roster db a).
Proof.
  intros Hwf Ha Hun. rewrite unregister_from_activity_eq, Ha in Hun.
  destruct (find_participant db a email) as [p|] eqn:Hp; [| discriminate].
  apply (f_equal snd) in Hun. cbn [snd] in Hun. subst db1.
  split; [now apply find_participant_In in Hp |].
  split; [now rewrite find_activity_flush_one |].
  apply roster_after_unregister; [apply (participant_pk _ Hwf) | exact Hp].
Qed.

(** X7. Unregistering twice: in a store that meets the schema constraints,
    when the roster of the activity holds no email twice and an unregister
    call succeeds, the same call run again fails with NotEnrolled and leaves
    the store as it is. *)
Theorem unregister_twice (activity_name email : string) (db db1 : Database)
  (a : Activity.t) (msg : Message) :
  well_formed db ->
  find_activity db activity_name = Some a ->
  NoDup (roster db a) ->
  unregister_from_activity activity_name email db = (inr msg, db1) ->
  unregister_from_activity activity_name email db1 = (inl NotEnrolled, db1).
Proof.
  intros Hwf Ha Hnd Hun.
  destruct (unregister_success_inv _ _ _ _ _ _ Hwf Ha Hun) as (_ & Ha1 & Hr).
  rewrite unregister_from_activity_eq, Ha1.
  assert (Hgone : ~ In email (roster db1 a))
    by (rewrite Hr; now apply remove_first_NoDup).
  apply find_participant_None in Hgone. now rewrite Hgone.
Qed.

Lemma unregister_twice_witness :
  unregister_from_activity "Solo" "first@mergington.edu"
    (snd (unregister_from_activity "Solo" "first@mergington.edu" solo_full))
  = (inl NotEnrolled,
     snd (unregister_from_activity "Solo" "first@mergington.edu" solo_full)).
Proof.
  apply (unregister_twice "Solo" "first@mergington.edu" solo_full _ solo
           (unregister_message "Solo" "first@mergington.edu")).
  - apply well_formedb_sound. vm_compute. reflexivity.
  - reflexivity.
  - apply (distinct_NoDup String.eqb String.eqb_spec). vm_compute. reflexivity.
  - reflexivity.
Defined.

(** X8. Leaving and coming back: in a store that meets the schema
    constraints, for an activity within its capacity whose roster holds no
    email twice, unregistering an enrolled email and signing it up again both
    succeed; the roster then has the same emails and the same count, with
    that email moved to the last place. *)
Theorem unregister_then_signup (activity_name email : string) (db : Database)
  (a : Activity.t) :
  well_formed db ->
  find_activity db activity_name = Some a ->
  roster_ok db a ->
  In email (roster db a) ->
  exists db1 db2,
    unregister_from_activity activity_name email db
    = (inr (unregister_message activity_name email), db1)
    /\ signup_for_activity activity_name email db1
       = (inr (signup_message activity_name email), db2)
    /\ roster db2 a = remove_first email (roster db a) ++ [email]
    /\ headcount db2 a = headcount db a
    /\ forall e, In e (roster db2 a) <-> In e (roster db a).
Proof.
  intros Hwf Ha [Hcap Hnd] Hin.
  destruct (unregister_succeeds activity_name email db a Hwf Ha Hin)
    as (p & Hun & Hr).
  pose proof (remove_first_length email _ Hin) as Hlen.
  exists (flush_one db (PendingDelete p)),
         (flush_one (flush_one db (PendingDelete p))
                    (PendingAdd email (Activity.id a))).
  split; [exact Hun |]. split.
  - apply signup_succeeds.
    + now rewrite find_activity_flush_one.
    + rewrite Hr. now apply remove_first_NoDup.
    + unfold headcount in *. rewrite Hr. lia.
  - rewrite roster_after_signup, Hr. split; [reflexivity |]. split.
    + unfold headcount. rewrite roster_after_signup, Hr, length_app.
      simpl. lia.
    + intros e. rewrite in_app_iff. simpl.
      destruct (string_dec e email) as [-> | Hne].
      * tauto.
      * rewrite (remove_first_other email e _ Hne). intuition congruence.
Qed.

Lemma unregister_then_signup_witness :
  exists db1 db2,
    unregister_from_activity "Chess Club" "michael@mergington.edu" seeded
    = (inr (unregister_message "Chess Club" "michael@mergington.edu"), db1)
    /\ signup_for_activity "Chess Club" "michael@mergington.edu" db1
       = (inr (signup_message "Chess Club" "michael@mergington.edu"), db2)
    /\ roster db2 chess_club
       = remove_first "michael@mergington.edu" (roster seeded chess_club)
         ++ ["michael@mergington.edu"%string]
    /\ headcount db2 chess_club = headcount seeded chess_club
    /\ forall e, In e (roster db2 chess_club) <-> In e (roster seeded chess_club).
Proof.
  apply (unregister_then_signup "Chess Club" "michael@mergington.edu" seeded
           chess_club).
  - apply well_formedb_sound. vm_compute. reflexivity.
  - vm_compute. reflexivity.
  - apply roster_okb_sound. vm_compute. reflexivity.
  - apply existsb_eqb_In. vm_compute. reflexivity.
Defined.

(** X9. A full activity takes a new student once somebody leaves: in a
    store that meets the schema constraints, for an activity within its
    capacity, when a signup fails with CapacityExceeded and an unregister
    call for the same activity then succeeds, the same signup run after it
    succeeds and puts the email last in the roster. *)
Theorem place_freed (activity_name email leaver : string) (db db1 : Database)
  (a : Activity.t) (msg : Message) :
  well_formed db ->
  find_activity db activity_name = Some a ->
  headcount db a <= Activity.max_participants a ->
  fst (signup_for_activity activity_name email db) = inl CapacityExceeded ->
  unregister_from_activity activity_name leaver db = (inr msg, db1) ->
  exists db2,
    signup_for_activity activity_name email db1
    = (inr (signup_message activity_name email), db2)
    /\ roster db2 a = remove_first leaver (roster db a) ++ [email].
Proof.
  intros Hwf Ha Hcap Hfull Hun.
  destruct (unregister_success_inv _ _ _ _ _ _ Hwf Ha Hun) as (Hin & Ha1 & Hr).
  rewrite signup_for_activity_eq, Ha in Hfull.
  destruct (existsb _ _) eqn:Hdup; [discriminate |].
  apply existsb_eqb_not_In in Hdup.
  pose proof (remove_first_length leaver _ Hin) as Hlen.
  exists (flush_one db1 (PendingAdd email (Activity.id a))). split.
  - apply signup_succeeds; [exact Ha1 | |].
    + rewrite Hr. intros H. apply Hdup. now apply remove_first_subset in H.
    + unfold headcount in *. rewrite Hr. lia.
  - now rewrite roster_after_signup, Hr.
Qed.

Lemma place_freed_witness :
  exists db2,
    signup_for_activity "Solo" "second@mergington.edu"
      (snd (unregister_from_activity "Solo" "first@mergington.edu" solo_full))
    = (inr (signup_message "Solo" "second@mergington.edu"), db2)
    /\ roster db2 solo
       = remove_first "first@mergington.edu" (roster solo_full solo)
         ++ ["second@mergington.edu"%string].
Proof.
  apply (place_freed "Solo" "second@mergington.edu" "first@mergington.edu"
           solo_full _ solo
           (unregister_message "Solo" "first@mergington.edu")).
  - apply well_formedb_sound. vm_compute. reflexivity.
  - reflexivity.
  - vm_compute. discriminate.
  - reflexivity.
  - reflexivity.
Defined.

(** ** What the participant ids do not change *)

Lemma same_rosters_find (db db' : Database) (activity_name : string) :
  same_rosters db db' ->
  find_activity db activity_name = find_activity db' activity_name.
Proof. intros [E _]. unfold find_activity. now rewrite E. Qed.

Lemma same_rosters_step (op : operation) (db db' : Database) :
  well_formed db -> well_formed db' -> same_rosters db db' ->
  fst (call op db) = fst (call op db')
  /\ same_rosters (step db op) (step db' op).
Proof.
  intros Hwf Hwf' Hsame.
  pose proof (same_rosters_find db db' (target op) Hsame) as Hfind.
  destruct Hsame as [Hact Hros]. split.
  - rewrite !call_result_eq, <- Hfind.
    destruct (find_activity db (target op)); [now rewrite Hros | reflexivity].
  - split.
    + now rewrite !step_activities.
    + intros c. rewrite !roster_effect_eq by assumption.
      now rewrite <- Hfind, Hros.
Qed.

Lemma same_rosters_listing (db db' : Database) :
  well_formed db -> well_formed db' -> same_rosters db db' ->
  fst (get_activities db) = fst (get_activities db').
Proof.
  intros Hwf Hwf' [Hact Hros].
  rewrite !get_activities_eq by (apply activity_name_unique; assumption).
  cbn [fst]. rewrite <- Hact. f_equal. apply map_ext. intros a.
  unfold activity_info. now rewrite Hros.
Qed.

(** Rosters only read the activity and the email of the enrollment rows. *)
Lemma same_enrollments_same_rosters (db db' : Database) :
  map (fun p => (Participant.activity_id p, Participant.email p))
      (participants db)
  = map (fun p => (Participant.activity_id p, Participant.email p))
        (participants db') ->
  forall a, roster db a = roster db' a.
Proof.
  intros H a. unfold roster, participants_of. revert H.
  generalize (participants db') as l'.
  induction (participants db) as [|p l IH]; intros [|p' l'] H;
    try discriminate; [reflexivity |].
  simpl in H. injection H as Hact Hemail Hrest. simpl. rewrite Hact.
  destruct (_ =? _); simpl; [rewrite Hemail; f_equal |]; now apply IH.
Qed.

(** X10. The participant ids are not observable: two stores that meet the
    schema constraints and show the same activities and the same rosters
    answer any sequence of signup and unregister calls alike, call by call,
    show the same rosters after it, and give the same listing. *)
Theorem ids_unobservable (ops : list operation) (db db' : Database) :
  well_formed db -> well_formed db' -> same_rosters db db' ->
  trace ops db = trace ops db'
  /\ same_rosters (run ops db) (run ops db')
  /\ fst (get_activities (run ops db)) = fst (get_activities (run ops db')).
Proof.
  revert db db'. induction ops as [|op ops IH]; intros db db' Hwf Hwf' Hsame.
  - split; [reflexivity |]. split; [exact Hsame |].
    now apply same_rosters_listing.
  - destruct (same_rosters_step op db db' Hwf Hwf' Hsame) as [Hres Hstep].
    destruct (IH (step db op) (step db' op)
                 (step_well_formed _ _ Hwf) (step_well_formed _ _ Hwf') Hstep)
      as (Htrace & Hrun & Hlist).
    cbn [trace]. rewrite <- !step_call. split; [| split].
    + now rewrite Hres, Htrace.
    + exact Hrun.
    + exact Hlist.
Qed.

Lemma ids_unobservable_witness :
  participants after_detour <> participants straight
  /\ trace scenario after_detour = trace scenario straight
  /\ same_rosters (run scenario after_detour) (run scenario straight)
  /\ fst (get_activities (run scenario after_detour))
     = fst (get_activities (run scenario straight)).
Proof.
  split; [vm_compute; discriminate |].
  apply (ids_unobservable scenario after_detour straight).
  - apply well_formedb_sound. vm_compute. reflexivity.
  - apply well_formedb_sound. vm_compute. reflexivity.
  - split; [vm_compute; reflexivity |].
    apply same_enrollments_same_rosters. vm_compute. reflexivity.
Defined.

(** ** Calls on different activities *)

Lemma roster_effect_commute (op1 op2 : operation)
  (f1 f2 : option Activity.t) (c : Activity.t) (l : list string) :
  (forall a1 a2, f1 = Some a1 -> f2 = Some a2 ->
                 Activity.id a1 <> Activity.id a2) ->
  roster_effect op2 f2 c (roster_effect op1 f1 c l)
  = roster_effect op1 f1 c (roster_effect op2 f2 c l).
Proof.
  intros Hids. unfold roster_effect.
  destruct f1 as [a1|], f2 as [a2|]; try reflexivity.
  specialize (Hids a1 a2 eq_refl eq_refl).
  destruct (Z.eqb_spec (Activity.id a1) (Activity.id c)) as [E1 | E1],
           (Z.eqb_spec (Activity.id a2) (Activity.id c)) as [E2 | E2];
    try reflexivity.
  congruence.
Qed.

Lemma found_apart (db : Database) (n1 n2 : string) (a1 a2 : Activity.t) :
  well_formed db -> n1 <> n2 ->
  find_activity db n1 = Some a1 -> find_activity db n2 = Some a2 ->
  Activity.id a1 <> Activity.id a2.
Proof.
  intros Hwf Hne H1 H2.
  apply find_activity_Some in H1 as [Hin1 Hn1].
  apply find_activity_Some in H2 as [Hin2 Hn2].
  apply (other_activity_other_id db); try assumption. congruence.
Qed.

Lemma call_elsewhere (op1 op2 : operation) (db : Database) :
  well_formed db -> target op1 <> target op2 ->
  fst (call op2 (step db op1)) = fst (call op2 db).
Proof.
  intros Hwf Hne. rewrite !call_result_eq, find_activity_step.
  destruct (find_activity db (target op2)) as [a2|] eqn:H2; [| reflexivity].
  f_equal. rewrite roster_effect_eq by assumption. unfold roster_effect.
  destruct (find_activity db (target op1)) as [a1|] eqn:H1; [| reflexivity].
  pose proof (found_apart db _ _ a1 a2 Hwf Hne H1 H2) as Hid.
  apply Z.eqb_neq in Hid. now rewrite Hid.
Qed.

(** X11. Calls on different activities are independent: in a store that
    meets the schema constraints, when two calls name different activities,
    each one answers the same whether it runs before or after the other, and
    the two orders lead to stores that show the same activities and the same
    rosters. *)
Theorem calls_elsewhere_commute (op1 op2 : operation) (db : Database) :
  well_formed db ->
  target op1 <> target op2 ->
  fst (call op2 (step db op1)) = fst (call op2 db)
  /\ fst (call op1 (step db op2)) = fst (call op1 db)
  /\ same_rosters (run [op1; op2] db) (run [op2; op1] db).
Proof.
  intros Hwf Hne. split; [now apply call_elsewhere |].
  split; [apply call_elsewhere; [assumption | congruence] |].
  split.
  - now rewrite !run_activities.
  - intros c. cbn [run fold_left].
    rewrite !roster_effect_eq by (try apply step_well_formed; assumption).
    rewrite !find_activity_step. apply roster_effect_commute.
    intros a1 a2 H1 H2. exact (found_apart db _ _ a1 a2 Hwf Hne H1 H2).
Qed.

Lemma calls_elsewhere_commute_witness :
  fst (call (Unregister "Programming Class" "emma@mergington.edu")
            (step seeded (Signup "Chess Club" "new@mergington.edu")))
  = fst (call (Unregister "Programming Class" "emma@mergington.edu") seeded)
  /\ fst (call (Signup "Chess Club" "new@mergington.edu")
               (step seeded
                     (Unregister "Programming Class" "emma@mergington.edu")))
     = fst (call (Signup "Chess Club" "new@mergington.edu") seeded)
  /\ same_rosters
       (run [Signup "Chess Club" "new@mergington.edu";
             Unregister "Programming Class" "emma@mergington.edu"] seeded)
       (run [Unregister "Programming Class" "emma@mergington.edu";
             Signup "Chess Club" "new@mergington.edu"] seeded).
Proof.
  apply (calls_elsewhere_commute
           (Signup "Chess Club" "new@mergington.edu")
           (Unregister "Programming Class" "emma@mergington.edu") seeded).
  - apply well_formedb_sound. vm_compute. reflexivity.
  - discriminate.
Defined.

(** ** A queue for the places of one activity *)

Lemma signup_full (activity_name email : string) (db : Database)
  (a : Activity.t) :
  find_activity db activity_name = Some a ->
  ~ In email (roster db a) ->
  Activity.max_participants a <= headcount db a ->
  signup_for_activity activity_name email db = (inl CapacityExceeded, db).
Proof.
  intros Ha Hnew Hfull. rewrite signup_for_activity_eq, Ha.
  apply existsb_eqb_not_In in Hnew. rewrite Hnew.
  destruct (Z.geb_spec (headcount db a) (Activity.max_participants a));
    [reflexivity | lia].
Qed.

(** X12. First come, first served: when new, pairwise different emails sign
    up one after the other for the same activity, the first ones succeed
    until no place is left and are appended to the roster in that order, and
    every later one fails with CapacityExceeded. *)
Theorem first_come_first_served (activity_name : string)
  (emails : list string) (db : Database) (a : Activity.t) :
  find_activity db activity_name = Some a ->
  NoDup emails ->
  (forall e, In e emails -> ~ In e (roster db a)) ->
  roster (run (map (Signup activity_name) emails) db) a
  = roster db a ++ firstn (places_left db a) emails
  /\ trace (map (Signup activity_name) emails) db
     = map (fun e => inr (signup_message activity_name e))
           (firstn (places_left db a) emails)
       ++ map (fun _ => inl CapacityExceeded)
              (skipn (places_left db a) emails).
Proof.
  revert db. induction emails as [|e es IH]; intros db Ha Hnd Hnew.
  - simpl. rewrite firstn_nil, skipn_nil, app_nil_r. now split.
  - inversion Hnd as [|? ? He Hes]; subst.
    assert (Hnew_e : ~ In e (roster db a)) by (apply Hnew; now left).
    cbn [map run fold_left trace call step].
    destruct (Z_lt_le_dec (headcount db a) (Activity.max_participants a))
      as [Hroom | Hfull].
    + rewrite (signup_succeeds activity_name e db a Ha Hnew_e Hroom).
      cbn [fst snd].
      set (db1 := flush_one db (PendingAdd e (Activity.id a))).
      assert (Hr : roster db1 a = roster db a ++ [e])
        by apply roster_after_signup.
      assert (Hplaces : places_left db a = S (places_left db1 a)).
      { unfold places_left, headcount in *. rewrite Hr, length_app.
        simpl. lia. }
      destruct (IH db1) as [IHr IHt].
      * unfold db1. now rewrite find_activity_flush_one.
      * exact Hes.
      * intros e' He'. rewrite Hr, in_app_iff. simpl.
        intros [H | [<- | []]]; [| contradiction].
        revert H. apply Hnew. now right.
      * fold (run (map (Signup activity_name) es) db1).
        rewrite IHr, IHt, Hplaces, Hr. cbn [firstn skipn map].
        rewrite <- app_assoc. now split.
    + rewrite (signup_full activity_name e db a Ha Hnew_e Hfull).
      cbn [fst snd].
      assert (Hplaces : places_left db a = 0%nat)
        by (unfold places_left; lia).
      destruct (IH db Ha Hes) as [IHr IHt].
      * intros e' He'. apply Hnew. now right.
      * fold (run (map (Signup activity_name) es) db).
        rewrite IHr, IHt, Hplaces. cbn [firstn skipn map app].
        split; reflexivity.
Qed.

Lemma first_come_first_served_witness :
  roster (run (map (Signup "Solo")
                   ["a@mergington.edu"; "b@mergington.edu"]%string)
              solo_empty) solo
  = roster solo_empty solo
    ++ firstn (places_left solo_empty solo)
              ["a@mergington.edu"; "b@mergington.edu"]%string
  /\ trace (map (Signup "Solo")
                ["a@mergington.edu"; "b@mergington.edu"]%string) solo_empty
     = map (fun e => inr (signup_message "Solo" e))
           (firstn (places_left solo_empty solo)
                   ["a@mergington.edu"; "b@mergington.edu"]%string)
       ++ map (fun _ => inl CapacityExceeded)
              (skipn (places_left solo_empty solo)
                     ["a@mergington.edu"; "b@mergington.edu"]%string).
Proof.
  apply (first_come_first_served "Solo"
           ["a@mergington.edu"; "b@mergington.edu"]%string solo_empty solo).
  - reflexivity.
  - apply (distinct_NoDup String.eqb String.eqb_spec). vm_compute. reflexivity.
  - intros e _ [].
Defined.

(** ** Status codes *)

(** X13. Status codes: a signup or an unregister call that fails carries
    status 404 exactly when no activity has the name it was given, and status
    400 otherwise; the failures with status 400 are told apart by their
    detail only. *)
Theorem failure_status (op : operation) (db : Database) (err : HTTPException) :
  fst (call op db) = inl err ->
  (status_code err = 404 <-> ~ activity_exists db (target op))
  /\ (status_code err = 400 <-> activity_exists db (target op))
  /\ (status_code err = 400 ->
      err = AlreadyEnrolled \/ err = CapacityExceeded \/ err = NotEnrolled).
Proof.
  rewrite call_result_eq. unfold call_result.
  destruct (find_activity db (target op)) as [a|] eqn:Ha.
  - assert (Hex : activity_exists db (target op)).
    { apply find_activity_Some in Ha as [Hin Hname]. now exists a. }
    destruct op as [n e | n e];
      repeat match goal with
        | |- context [if ?b then _ else _] => destruct b
        end;
      intros E; try discriminate; injection E as <-;
      (split; [split; [discriminate | tauto] |]);
      (split; [split; [tauto | reflexivity] | auto]).
  - apply find_activity_None in Ha. intros E. injection E as <-.
    split; [split; [tauto | reflexivity] |].
    split; [split; [discriminate | tauto] | discriminate].
Qed.

Lemma failure_status_witness :
  (status_code NotFound = 404
   <-> ~ activity_exists seeded "Unknown Club")
  /\ (status_code NotFound = 400 <-> activity_exists seeded "Unknown Club")
  /\ (status_code NotFound = 400 ->
      NotFound = AlreadyEnrolled \/ NotFound = CapacityExceeded
      \/ NotFound = NotEnrolled).
Proof.
  apply (failure_status (Signup "Unknown Club" "x@mergington.edu") seeded).
  vm_compute. reflexivity.
Defined.
